(** * QEChannelListModel: the channel list adapter of the QML GUI

    A shallow embedding of [electrum/gui/qml/qechannellistmodel.py] and the
    properties of its row list: which keys a row carries, what each slot
    does to the list and which notifications it emits, and which calls
    raise.

    Python values are embedded as they occur in the rows (bool, int, str
    and QEAmount), a row is the dict [item] built by [channel_to_model],
    embedded as a finite map from key names to values, and the methods run
    in a small state-and-exception monad over the attributes of [self]. *)

From Stdlib Require Import ZArith Ascii String Strings.Byte.
From stdpp Require Import gmap strings list fin_maps sorting.

Local Open Scope Z_scope.

(** ** Python runtime: exceptions and results *)

Inductive exn :=
  | KeyError (key : string)
  | IndexError
  | ValueError
  | TypeError
  | AssertionError
  | AttributeError (attr : string).

Inductive result (A : Type) :=
  | Ok (a : A)
  | Raise (e : exn).
Arguments Ok {A} a.
Arguments Raise {A} e.

Definition result_bind {A B} (r : result A) (f : A → result B) : result B :=
  match r with
  | Ok a => f a
  | Raise e => Raise e
  end.

#[global] Instance result_ret : MRet result := λ A a, Ok a.
#[global] Instance result_mbind : MBind result := λ A B f r, result_bind r f.

Definition raises {A} (r : result A) : Prop :=
  match r with Ok _ => False | Raise _ => True end.

(** ** bytes.hex() *)

Definition hex_digit (n : N) : ascii :=
  match n with
  | 0 => "0" | 1 => "1" | 2 => "2" | 3 => "3" | 4 => "4" | 5 => "5"
  | 6 => "6" | 7 => "7" | 8 => "8" | 9 => "9" | 10 => "a" | 11 => "b"
  | 12 => "c" | 13 => "d" | 14 => "e" | _ => "f"
  end%N%char.

Definition byte_hex (b : byte) : list ascii :=
  let n := Byte.to_N b in
  [hex_digit (n / 16); hex_digit (n mod 16)]%N.

Fixpoint bytes_hex_chars (bs : list byte) : list ascii :=
  match bs with
  | [] => []
  | b :: bs' => byte_hex b ++ bytes_hex_chars bs'
  end.

Definition bytes_hex (bs : list byte) : string :=
  string_of_list_ascii (bytes_hex_chars bs).

(** The inverse reading of two hex digits, used to show [bytes_hex]
    injective. *)
Definition hex_value (c : ascii) : N :=
  match c with
  | "0" => 0 | "1" => 1 | "2" => 2 | "3" => 3 | "4" => 4 | "5" => 5
  | "6" => 6 | "7" => 7 | "8" => 8 | "9" => 9 | "a" => 10 | "b" => 11
  | "c" => 12 | "d" => 13 | "e" => 14 | _ => 15
  end%N%char.

Fixpoint bytes_unhex_chars (cs : list ascii) : list byte :=
  match cs with
  | c1 :: c2 :: cs' =>
      match Byte.of_N (16 * hex_value c1 + hex_value c2) with
      | Some b => b :: bytes_unhex_chars cs'
      | None => []
      end
  | _ => []
  end.

(** ** Python values held by a row *)

(** Modelled from the spec: the QEAmount type of the qetypes module, which is
    not part of this file.  The rows hold "amounts"; the adapter builds them
    with [QEAmount(amount_sat=..)], [QEAmount(amount_msat=..)] and
    [QEAmount()], so an amount is the pair of its two keyword arguments, each
    0 when not given, and it is empty when both are 0. *)
Record QEAmount := mkQEAmount { amount_sat : Z; amount_msat : Z }.

Definition QEAmount_new : QEAmount := mkQEAmount 0 0.
Definition QEAmount_sat (sat : Z) : QEAmount := mkQEAmount sat 0.
Definition QEAmount_msat (msat : Z) : QEAmount := mkQEAmount 0 msat.

Definition QEAmount_isEmpty (a : QEAmount) : bool :=
  (amount_sat a =? 0) && (amount_msat a =? 0).

Inductive value :=
  | VBool (b : bool)
  | VInt (z : Z)
  | VStr (s : string)
  | VAmount (a : QEAmount).

#[global] Instance QEAmount_eq_dec : EqDecision QEAmount.
Proof. solve_decision. Defined.
#[global] Instance value_eq_dec : EqDecision value.
Proof. solve_decision. Defined.

Definition bool_to_int (b : bool) : Z := if b then 1 else 0.

(** [a == b] on these values: bool is a subclass of int and compares as 0
    and 1, a str only equals a str, an amount only an amount. *)
Definition py_eq (a b : value) : bool :=
  match a, b with
  | VBool x, VBool y => Bool.eqb x y
  | VInt x, VInt y => x =? y
  | VBool x, VInt y => bool_to_int x =? y
  | VInt x, VBool y => x =? bool_to_int y
  | VStr x, VStr y => String.eqb x y
  | VAmount x, VAmount y =>
      (amount_sat x =? amount_sat y) && (amount_msat x =? amount_msat y)
  | _, _ => false
  end.

(** Truth value of an object in a condition. *)
Definition py_truthy (a : value) : bool :=
  match a with
  | VBool b => b
  | VInt z => negb (z =? 0)
  | VStr s => negb (String.eqb s "")
  | VAmount _ => true
  end.

(** [a + n] for an int [n]. *)
Definition py_add_int (a : value) (n : Z) : result Z :=
  match a with
  | VBool b => Ok (bool_to_int b + n)
  | VInt z => Ok (z + n)
  | VStr _ | VAmount _ => Raise TypeError
  end.

(** [l[i]] on a list or tuple: a negative index counts from the end. *)
Definition py_norm_index {A} (l : list A) (i : Z) : option nat :=
  let n := Z.of_nat (length l) in
  let j := if i <? 0 then i + n else i in
  if (j <? 0) || (n <=? j) then None else Some (Z.to_nat j).

Definition py_index {A} (l : list A) (i : Z) : result A :=
  match py_norm_index l i with
  | Some j => match l !! j with Some x => Ok x | None => Raise IndexError end
  | None => Raise IndexError
  end.

(** [d[k]] on a dict. *)
Definition py_getitem (d : gmap string value) (k : string) : result value :=
  match d !! k with
  | Some v => Ok v
  | None => Raise (KeyError k)
  end.

(** [d1 == d2] on dicts: the same keys, with equal values. *)
Definition dict_eqb (d1 d2 : gmap string value) : bool :=
  bool_decide (dom d1 = dom d2)
  && forallb (λ kv, match d2 !! kv.1 with
                    | Some v' => py_eq kv.2 v'
                    | None => false
                    end) (map_to_list d1).

(** [l.remove(x)]: deletes the first element equal to [x], ValueError when
    there is none. *)
Fixpoint py_list_remove (l : list (gmap string value)) (x : gmap string value)
  : result (list (gmap string value)) :=
  match l with
  | [] => Raise ValueError
  | y :: l' =>
      if dict_eqb y x then Ok l'
      else l'' ← py_list_remove l' x; Ok (y :: l'')
  end.

(** [sum(l)] *)
Definition py_sum (l : list Z) : Z := foldl Z.add 0 l.

(** [l.sort(key=f)]: the keys are computed first, for every element, then the
    list is sorted on them; the sort is stable. *)
Fixpoint sort_insert {A} (kx : Z * A) (l : list (Z * A)) : list (Z * A) :=
  match l with
  | [] => [kx]
  | ky :: l' => if kx.1 <=? ky.1 then kx :: l else ky :: sort_insert kx l'
  end.

Fixpoint sort_keyed {A} (l : list (Z * A)) : list (Z * A) :=
  match l with
  | [] => []
  | kx :: l' => sort_insert kx (sort_keyed l')
  end.

(** The order of the decorated list. *)
Definition key_le {A} : relation (Z * A) := λ a b, a.1 ≤ b.1.

Fixpoint keyed {A} (f : A → result Z) (l : list A) : result (list (Z * A)) :=
  match l with
  | [] => Ok []
  | x :: l' => k ← f x; kl ← keyed f l'; Ok ((k, x) :: kl)
  end.

Definition py_sort {A} (f : A → result Z) (l : list A) : result (list A) :=
  kl ← keyed f l; Ok ((sort_keyed kl).*2).

(** ** The wallet side: channels and the Lightning engine *)

Inductive HTLCOwner := LOCAL | REMOTE.

(** What the adapter reads from a channel object [lnc]: one field per
    accessor it calls. *)
Record Channel := mkChannel {
  channel_id : list byte;
  node_id : list byte;
  short_id_for_GUI : string;
  get_state_for_GUI : string;
  get_state : Z;
  is_backup : bool;
  is_imported : bool;
  get_capacity : Z;
  available_to_spend : HTLCOwner → Z;
  balance : HTLCOwner → Z
}.

(** A dict in iteration order. *)
Definition values {K V} (d : list (K * V)) : list V := d.*2.

(** [wallet.lnworker], as far as the adapter uses it: the dict [channels],
    the dict returned by [get_channel_objects()] and the two peer queries. *)
Record LNWorker := mkLNWorker {
  lnworker_channels : list (list byte * Channel);
  get_channel_objects : list (list byte * Channel);
  get_node_alias : list byte → option string;
  is_trampoline_peer : list byte → bool
}.

Record Wallet := mkWallet { lnworker : option LNWorker }.

(** ** The list model *)

Definition Qt_UserRole : Z := 256.

Definition _ROLE_NAMES : list string :=
  ["cid"; "state"; "state_code"; "initiator"; "capacity"; "can_send";
   "can_receive"; "l_csv_delay"; "r_csv_delay"; "send_frozen"; "receive_frozen";
   "type"; "node_id"; "node_alias"; "short_cid"; "funding_tx"; "is_trampoline";
   "is_backup"; "is_imported"; "local_capacity"; "remote_capacity"].

(** [range(Qt.UserRole, Qt.UserRole + len(_ROLE_NAMES))] *)
Definition _ROLE_KEYS : list Z :=
  (λ i, Qt_UserRole + Z.of_nat i) <$> seq 0 (length _ROLE_NAMES).

(** [dict(zip(_ROLE_NAMES, _ROLE_KEYS))] *)
Definition _ROLE_RMAP : gmap string Z :=
  list_to_map (reverse (zip _ROLE_NAMES _ROLE_KEYS)).

Inductive Signal :=
  | BeginResetModel
  | EndResetModel
  | BeginInsertRows (first last : Z)
  | EndInsertRows
  | BeginRemoveRows (first last : Z)
  | EndRemoveRows
  | CountChanged
  | DataChanged (top bottom : Z) (roles : list Z)
  | NumOpenChannelsChanged.

Inductive LogRecord :=
  | LogDebug (msg : string)
  | LogDebugItem (item : gmap string value)
  | LogWarning (msg : string).

(** The attributes of [self] that the methods read and write: the row list
    [self.channels] ([None] until it is first assigned), and what has been
    emitted and logged so far, oldest first. *)
Record QEChannelListModel := mkModel {
  channels : option (list (gmap string value));
  signals : list Signal;
  logged : list LogRecord
}.

(** A method body: runs on the object, returns or raises, and leaves the
    object as it is at that point. *)
Definition M (A : Type) : Type :=
  QEChannelListModel → result A * QEChannelListModel.

#[global] Instance M_ret : MRet M := λ A a s, (Ok a, s).
#[global] Instance M_bind : MBind M := λ A B f m s,
  match m s with
  | (Ok a, s') => f a s'
  | (Raise e, s') => (Raise e, s')
  end.

Definition lift {A} (r : result A) : M A := λ s, (r, s).

Definition emit (x : Signal) : M unit :=
  λ s, (Ok (), mkModel (channels s) (signals s ++ [x]) (logged s)).

Definition log (x : LogRecord) : M unit :=
  λ s, (Ok (), mkModel (channels s) (signals s) (logged s ++ [x])).

(** Reading [self.channels] *)
Definition get_channels : M (list (gmap string value)) :=
  λ s, match channels s with
       | Some l => (Ok l, s)
       | None => (Raise (AttributeError "channels"), s)
       end.

(** [self.channels = l] *)
Definition set_channels (l : list (gmap string value)) : M unit :=
  λ s, (Ok (), mkModel (Some l) (signals s) (logged s)).

Definition rowCount : M Z :=
  l ← get_channels; mret (Z.of_nat (length l)).

Definition count : M Z :=
  l ← get_channels; mret (Z.of_nat (length l)).

(** [x.encode()] of a role name: the bytes of the string. *)
Definition str_encode (x : string) : list byte := list_byte_of_string x.

(** [dict(zip(_ROLE_KEYS, [bytearray(x.encode()) for x in _ROLE_NAMES]))] *)
Definition _ROLE_MAP : gmap Z (list byte) :=
  list_to_map (reverse (zip _ROLE_KEYS (str_encode <$> _ROLE_NAMES))).

Definition roleNames : gmap Z (list byte) := _ROLE_MAP.

Definition data (row role : Z) : M value :=
  l ← get_channels;
  tx ← lift (py_index l row);
  let role_index := role - Qt_UserRole in
  name ← lift (py_index _ROLE_NAMES role_index);
  value ← lift (py_getitem tx name);
  match value with
  | VBool _ | VInt _ | VStr _ | VAmount _ => mret value
  end.

Definition clear : M unit :=
  emit BeginResetModel;;
  set_channels [];;
  emit EndResetModel.

Definition channel_to_model (wallet : Wallet) (lnc : Channel)
  : result (gmap string value) :=
  let lnworker := lnworker wallet in
  let item : gmap string value := ∅ in
  let item := <["cid" := VStr (bytes_hex (channel_id lnc))]> item in
  let item := <["node_id" := VStr (bytes_hex (node_id lnc))]> item in
  lnw ← match lnworker with
        | Some w => Ok w
        | None => Raise (AttributeError "get_node_alias")
        end;
  let item := <["node_alias" :=
                 VStr (match get_node_alias lnw (node_id lnc) with
                       | Some a => if String.eqb a "" then "" else a
                       | None => ""
                       end)]> item in
  let item := <["short_cid" := VStr (short_id_for_GUI lnc)]> item in
  let item := <["state" := VStr (get_state_for_GUI lnc)]> item in
  let item := <["state_code" := VInt (get_state lnc)]> item in
  let item := <["is_backup" := VBool (is_backup lnc)]> item in
  let item := <["is_trampoline" :=
                 VBool (is_trampoline_peer lnw (node_id lnc))]> item in
  let item := <["capacity" := VAmount (QEAmount_sat (get_capacity lnc))]> item in
  let item :=
    if is_backup lnc then
      let item := <["can_send" := VAmount QEAmount_new]> item in
      let item := <["can_receive" := VAmount QEAmount_new]> item in
      let item := <["local_capacity" := VAmount QEAmount_new]> item in
      let item := <["remote_capacity" := VAmount QEAmount_new]> item in
      <["is_imported" := VBool (is_imported lnc)]> item
    else
      let item := <["can_send" :=
                     VAmount (QEAmount_msat (available_to_spend lnc LOCAL))]> item in
      let item := <["can_receive" :=
                     VAmount (QEAmount_msat (available_to_spend lnc REMOTE))]> item in
      let item := <["local_capacity" :=
                     VAmount (QEAmount_msat (balance lnc LOCAL))]> item in
      let item := <["remote_capacity" :=
                     VAmount (QEAmount_msat (balance lnc REMOTE))]> item in
      <["is_imported" := VBool false]> item in
  Ok item.

(** The [ChannelState.OPEN] constant of the lnchannel module is not part of
    this file; the count is taken over any value of it. *)
Definition open_flag (ChannelState_OPEN : Z) (x : gmap string value)
  : result Z :=
  v ← py_getitem x "state_code";
  Ok (if py_eq v (VInt ChannelState_OPEN) then 1 else 0).

Definition numOpenChannels (ChannelState_OPEN : Z) : M Z :=
  l ← get_channels;
  flags ← lift (mapM (open_flag ChannelState_OPEN) l);
  mret (py_sum flags).

Definition chan_sort_score (c : gmap string value) : result Z :=
  sc ← py_getitem c "state_code";
  b ← py_getitem c "is_backup";
  py_add_int sc (if py_truthy b then 10 else 0).

Fixpoint init_model_loop (wallet : Wallet) (lnchannels : list Channel)
    (channels : list (gmap string value)) : result (list (gmap string value)) :=
  match lnchannels with
  | [] => Ok channels
  | channel :: rest =>
      item ← channel_to_model wallet channel;
      init_model_loop wallet rest (channels ++ [item])
  end.

Definition init_model (wallet : Wallet) : M unit :=
  log (LogDebug "init_model");;
  match lnworker wallet with
  | None => log (LogWarning "lnworker should be defined")
  | Some lnw =>
      let lnchannels := get_channel_objects lnw in
      channels ← lift (init_model_loop wallet (values lnchannels) []);
      channels ← lift (py_sort chan_sort_score channels);
      clear;;
      emit (BeginInsertRows 0 (Z.of_nat (length channels) - 1));;
      set_channels channels;;
      emit EndInsertRows;;
      emit CountChanged
  end.

(** [__init__]: the object starts without a [channels] attribute and runs
    [init_model]. *)
Definition new_model : QEChannelListModel := mkModel None [] [].

Definition __init__ (wallet : Wallet) : result unit * QEChannelListModel :=
  init_model wallet new_model.

(** [modelitem.update(d)] on the dict object at [self.channels[modelindex]]:
    the keys of [d] are overwritten in place, the other keys stay.  The row
    dicts are referenced from the list only, so the update shows as the
    list with that one element changed. *)
Definition update_item (modelindex : Z) (d : gmap string value) : M unit :=
  l ← get_channels;
  match py_norm_index l modelindex with
  | Some j =>
      match l !! j with
      | Some modelitem => set_channels (<[j := d ∪ modelitem]> l)
      | None => lift (Raise IndexError)
      end
  | None => lift (Raise IndexError)
  end.

Definition do_update (wallet : Wallet) (modelindex : Z) (channel : Channel)
  : M unit :=
  log (LogDebug ("updating our channel " +:+ short_id_for_GUI channel));;
  l ← get_channels;
  modelitem ← lift (py_index l modelindex);
  d ← lift (channel_to_model wallet channel);
  update_item modelindex d;;
  let mi := modelindex in
  emit (DataChanged mi mi _ROLE_KEYS);;
  emit NumOpenChannelsChanged.

Fixpoint on_channel_updated_loop (wallet : Wallet) (channel : Channel)
    (iter : list (gmap string value)) (i : Z) : M unit :=
  match iter with
  | [] => mret ()
  | c :: rest =>
      v ← lift (py_getitem c "cid");
      if py_eq v (VStr (bytes_hex (channel_id channel))) then
        do_update wallet i channel
      else
        on_channel_updated_loop wallet channel rest (i + 1)
  end.

Definition on_channel_updated (wallet : Wallet) (channel : Channel) : M unit :=
  let i := 0 in
  l ← get_channels;
  on_channel_updated_loop wallet channel l i.

Fixpoint new_channel_loop (wallet : Wallet) (cid : string)
    (lnchannels : list Channel) : M unit :=
  match lnchannels with
  | [] => mret ()
  | channel :: rest =>
      if String.eqb cid (bytes_hex (channel_id channel)) then
        item ← lift (channel_to_model wallet channel);
        log (LogDebugItem item);;
        emit (BeginInsertRows 0 0);;
        l ← get_channels;
        set_channels (item :: l);;
        emit EndInsertRows;;
        emit CountChanged
      else
        new_channel_loop wallet cid rest
  end.

Definition new_channel (wallet : Wallet) (cid : string) : M unit :=
  log (LogDebug ("new channel with cid " +:+ cid));;
  lnw ← lift (match lnworker wallet with
              | Some w => Ok w
              | None => Raise (AttributeError "channels")
              end);
  let lnchannels := lnworker_channels lnw in
  new_channel_loop wallet cid (values lnchannels).

Fixpoint remove_channel_loop (cid : string) (iter : list (gmap string value))
    (i : Z) : M unit :=
  match iter with
  | [] => mret ()
  | channel :: rest =>
      v ← lift (py_getitem channel "cid");
      if py_eq (VStr cid) v then
        log (LogDebug cid);;
        emit (BeginRemoveRows i i);;
        l ← get_channels;
        l' ← lift (py_list_remove l channel);
        set_channels l';;
        emit EndRemoveRows;;
        emit CountChanged
      else
        remove_channel_loop cid rest (i + 1)
  end.

Definition remove_channel (cid : string) : M unit :=
  log (LogDebug ("remove channel with cid " +:+ cid));;
  let i := 0 in
  l ← get_channels;
  remove_channel_loop cid l i.

(** The proxy returned by [filterModel]: it reads the rows through the model
    and keeps the role key and the value to match. *)
Record QEFilterProxyModel := mkFilter {
  filterRole : Z;
  filterValue : value
}.

Definition filterModel (role : string) (match_ : value)
  : result QEFilterProxyModel :=
  match _ROLE_RMAP !! role with
  | None => Raise AssertionError
  | Some key => Ok (mkFilter key match_)
  end.

Definition filterModelBackups : result QEFilterProxyModel :=
  filterModel "is_backup" (VBool true).

Definition filterModelNoBackups : result QEFilterProxyModel :=
  filterModel "is_backup" (VBool false).

(** ** Rows, lists and wallets that the properties are about *)

(** The keys that [channel_to_model] assigns. *)
Definition ITEM_KEYS : list string :=
  ["cid"; "node_id"; "node_alias"; "short_cid"; "state"; "state_code";
   "is_backup"; "is_trampoline"; "capacity"; "can_send"; "can_receive";
   "local_capacity"; "remote_capacity"; "is_imported"].

(** A row that some call of [channel_to_model] returned. *)
Definition adapter_row (r : gmap string value) : Prop :=
  ∃ wallet lnc, channel_to_model wallet lnc = Ok r.

Definition row_cid (r : gmap string value) : option value := r !! "cid".

Definition cid_of (lnc : Channel) : string := bytes_hex (channel_id lnc).

(** Position of the first row whose cid equals [cid]. *)
Fixpoint find_cid (cid : string) (l : list (gmap string value)) : option nat :=
  match l with
  | [] => None
  | r :: l' =>
      if bool_decide (r !! "cid" = Some (VStr cid)) then Some 0%nat
      else S <$> find_cid cid l'
  end.

(** First channel of a dict's values whose id prints as [cid]. *)
Fixpoint find_channel (cid : string) (l : list Channel) : option Channel :=
  match l with
  | [] => None
  | c :: l' => if String.eqb cid (cid_of c) then Some c else find_channel cid l'
  end.

(** The row of a channel when the wallet has an engine. *)
Definition item_of (wallet : Wallet) (lnc : Channel) : gmap string value :=
  match channel_to_model wallet lnc with
  | Ok r => r
  | Raise _ => ∅
  end.

(** The sort key of a row whose score can be computed. *)
Definition score_of (r : gmap string value) : Z :=
  match chan_sort_score r with
  | Ok z => z
  | Raise _ => 0
  end.

Definition row_state_code (r : gmap string value) : Z :=
  match r !! "state_code" with
  | Some (VInt z) => z
  | _ => 0
  end.

Definition row_is_backup (r : gmap string value) : bool :=
  match r !! "is_backup" with
  | Some (VBool b) => b
  | _ => false
  end.

(** The dicts of the engine are keyed by channel id: no key twice, and every
    channel is stored under its own id. *)
Definition keyed_by_id (d : list (list byte * Channel)) : Prop :=
  NoDup d.*1 ∧ Forall (λ kc, channel_id kc.2 = kc.1) d.

Definition unique_cids (l : list (gmap string value)) : Prop :=
  NoDup (row_cid <$> l).

(** Number of rows whose state code is [open]. *)
Definition count_open (open : Z) (l : list (gmap string value)) : Z :=
  Z.of_nat (length (filter (λ r, r !! "state_code" = Some (VInt open)) l)).

(** The slots as events, and the states the adapter can be in. *)
Inductive slot :=
  | Rebuild (wallet : Wallet)
  | ApplyUpdate (wallet : Wallet) (channel : Channel)
  | Insert (wallet : Wallet) (cid : string)
  | Remove (cid : string).

Definition run_slot (o : slot) : M unit :=
  match o with
  | Rebuild w => init_model w
  | ApplyUpdate w c => on_channel_updated w c
  | Insert w cid => new_channel w cid
  | Remove cid => remove_channel cid
  end.

Inductive reachable : QEChannelListModel → Prop :=
  | reachable_init wallet : reachable (__init__ wallet).2
  | reachable_slot s o : reachable s → reachable (run_slot o s).2.

(** The order "by (state code, backup flag)": a smaller state code first,
    and for rows of equal state code the one that is no backup first. *)
Definition state_then_backup_le (r1 r2 : gmap string value) : Prop :=
  row_state_code r1 < row_state_code r2
  ∨ (row_state_code r1 = row_state_code r2
     ∧ (row_is_backup r1 = true → row_is_backup r2 = true)).

Definition ordered_by (R : relation (gmap string value))
    (l : list (gmap string value)) : Prop :=
  ∀ (i j : nat) ri rj, (i < j)%nat → l !! i = Some ri → l !! j = Some rj → R ri rj.

(** The order the sort key gives. *)
Definition score_le (r1 r2 : gmap string value) : Prop :=
  row_state_code r1 + (if row_is_backup r1 then 10 else 0)
  ≤ row_state_code r2 + (if row_is_backup r2 then 10 else 0).

(** The role names for which [channel_to_model] assigns no key. *)
Definition UNSET_ROLE_NAMES : list string :=
  filter (λ name, name ∉ ITEM_KEYS) _ROLE_NAMES.

(** Every row of the list was built by the adapter. *)
Definition adapter_rows (s : QEChannelListModel) : Prop :=
  ∀ l, channels s = Some l → Forall adapter_row l.

(** ... and no two of them have the same cid. *)
Definition unique_rows (s : QEChannelListModel) : Prop :=
  ∀ l, channels s = Some l → Forall adapter_row l ∧ unique_cids l.

Definition wallet_keyed (wallet : Wallet) : Prop :=
  ∀ lnw, lnworker wallet = Some lnw →
         keyed_by_id (lnworker_channels lnw)
         ∧ keyed_by_id (get_channel_objects lnw).

(** The calls under which the cids stay apart: a rebuild from dicts keyed by
    channel id, any update, any removal, and the insertion of a cid that no
    row of the list has. *)
Definition keeps_cids_apart (s : QEChannelListModel) (o : slot) : Prop :=
  match o with
  | Rebuild wallet => wallet_keyed wallet
  | Insert _ cid =>
      match channels s with
      | Some l => find_cid cid l = None
      | None => True
      end
  | ApplyUpdate _ _ | Remove _ => True
  end.

(** A run of slot calls, and the runs whose every call keeps the cids
    apart. *)
Fixpoint run_slots (os : list slot) (s : QEChannelListModel)
  : QEChannelListModel :=
  match os with
  | [] => s
  | o :: os' => run_slots os' (run_slot o s).2
  end.

Fixpoint cids_kept_apart (s : QEChannelListModel) (os : list slot) : Prop :=
  match os with
  | [] => True
  | o :: os' => keeps_cids_apart s o ∧ cids_kept_apart (run_slot o s).2 os'
  end.

(** ** A small wallet to run the slots on *)

Definition chan_open : Channel :=
  mkChannel [x01] [xaa] "700x1x0" "OPEN" 3 false false 100000
            (λ o, match o with LOCAL => 60000000 | REMOTE => 40000000 end)
            (λ o, match o with LOCAL => 60000000 | REMOTE => 40000000 end).

Definition chan_backup : Channel :=
  mkChannel [x02] [xbb] "701x2x1" "OPENING" 1 true true 50000
            (λ _, 0) (λ _, 0).

Definition sample_lnworker : LNWorker :=
  mkLNWorker [([x01], chan_open)]
             [([x02], chan_backup); ([x01], chan_open)]
             (λ _, None) (λ _, false).

Definition sample_wallet : Wallet := mkWallet (Some sample_lnworker).

Definition plain_wallet : Wallet := mkWallet None.

(** The model of [sample_wallet], as its constructor leaves it. *)
Definition sample_model : QEChannelListModel := (__init__ sample_wallet).2.

Definition sample_rows : list (gmap string value) :=
  default [] (channels sample_model).

(** The two sample rows, and a model that holds just them. *)
Definition row_open : gmap string value := item_of sample_wallet chan_open.
Definition row_backup : gmap string value := item_of sample_wallet chan_backup.

Definition two_rows : QEChannelListModel :=
  mkModel (Some [row_open; row_backup]) [] [].

(** A second open channel, and an engine whose dict of channel objects holds
    two channels of one sort score around a backup. *)
Definition chan_open2 : Channel :=
  mkChannel [x03] [xcc] "702x3x0" "OPEN" 3 false false 200000
            (λ o, match o with LOCAL => 150000000 | REMOTE => 50000000 end)
            (λ o, match o with LOCAL => 150000000 | REMOTE => 50000000 end).

Definition tied_lnworker : LNWorker :=
  mkLNWorker [([x03], chan_open2); ([x01], chan_open)]
             [([x03], chan_open2); ([x02], chan_backup); ([x01], chan_open)]
             (λ _, None) (λ _, false).

Definition tied_wallet : Wallet := mkWallet (Some tied_lnworker).

(** An engine that holds no channel. *)
Definition empty_wallet : Wallet :=
  mkWallet (Some (mkLNWorker [] [] (λ _, None) (λ _, false))).

(** ** Facts about the runtime *)

Section runtime.

Lemma byte_unhex_hex (b : byte) (cs : list ascii) :
  bytes_unhex_chars (byte_hex b ++ cs) = b :: bytes_unhex_chars cs.
Proof. destruct b; reflexivity. Qed.

Lemma bytes_unhex_hex (bs : list byte) :
  bytes_unhex_chars (bytes_hex_chars bs) = bs.
Proof.
  induction bs as [|b bs IH]; [done|].
  cbn [bytes_hex_chars]. rewrite byte_unhex_hex. by rewrite IH.
Qed.

Lemma bytes_hex_inj (a b : list byte) : bytes_hex a = bytes_hex b → a = b.
Proof.
  unfold bytes_hex. intros H.
  apply (f_equal list_ascii_of_string) in H.
  rewrite !list_ascii_of_string_of_list_ascii in H.
  apply (f_equal bytes_unhex_chars) in H.
  by rewrite !bytes_unhex_hex in H.
Qed.

Lemma py_eq_refl (v : value) : py_eq v v = true.
Proof.
  destruct v as [[]|z|s|[a b]]; simpl; try done.
  - apply Z.eqb_refl.
  - apply String.eqb_refl.
  - by rewrite !Z.eqb_refl.
Qed.

Lemma py_eq_str_l (s : string) (v : value) :
  py_eq (VStr s) v = true ↔ v = VStr s.
Proof.
  destruct v; simpl; try (split; [done|intros [=]]).
  rewrite String.eqb_eq. split; [by intros ->|by intros [= ->]].
Qed.

Lemma py_eq_str_r (s : string) (v : value) :
  py_eq v (VStr s) = true ↔ v = VStr s.
Proof.
  destruct v; simpl; try (split; [done|intros [=]]).
  rewrite String.eqb_eq. split; [by intros ->|by intros [= ->]].
Qed.

Lemma py_norm_index_nat {A} (l : list A) (i : nat) :
  (i < length l)%nat → py_norm_index l (Z.of_nat i) = Some i.
Proof.
  intros Hi. unfold py_norm_index.
  destruct (Z.ltb_spec (Z.of_nat i) 0) as [?|_]; [lia|].
  destruct (Z.ltb_spec (Z.of_nat i) 0) as [?|_]; [lia|].
  destruct (Z.leb_spec (Z.of_nat (length l)) (Z.of_nat i)) as [?|_]; [lia|].
  simpl. by rewrite Nat2Z.id.
Qed.

Lemma py_index_nat {A} (l : list A) (i : nat) (x : A) :
  l !! i = Some x → py_index l (Z.of_nat i) = Ok x.
Proof.
  intros Hx. unfold py_index.
  rewrite py_norm_index_nat by (by eapply lookup_lt_Some).
  by rewrite Hx.
Qed.

Lemma dict_eqb_refl (d : gmap string value) : dict_eqb d d = true.
Proof.
  unfold dict_eqb. rewrite bool_decide_eq_true_2 by done. simpl.
  apply forallb_forall. intros [k v] Hin.
  apply list_elem_of_In, elem_of_map_to_list in Hin. simpl.
  rewrite Hin. apply py_eq_refl.
Qed.

Lemma dict_eqb_lookup (d1 d2 : gmap string value) (k : string) (v : value) :
  dict_eqb d1 d2 = true → d1 !! k = Some v →
  ∃ v', d2 !! k = Some v' ∧ py_eq v v' = true.
Proof.
  unfold dict_eqb. intros [_ Hall]%andb_true_iff Hk.
  rewrite forallb_forall in Hall.
  specialize (Hall (k, v)). simpl in Hall.
  destruct (d2 !! k) as [v'|].
  - exists v'. split; [done|]. apply Hall.
    by apply list_elem_of_In, elem_of_map_to_list.
  - discriminate Hall. by apply list_elem_of_In, elem_of_map_to_list.
Qed.

Lemma py_sum_flags_acc (l : list Z) (a : Z) : foldl Z.add a l = a + py_sum l.
Proof.
  unfold py_sum. revert a.
  induction l as [|x l IH]; intros a; simpl; [lia|].
  rewrite (IH (a + x)), (IH (0 + x)). lia.
Qed.

End runtime.

(** ** The stable sort on keys *)

Section sorting.
Context {A : Type}.
Implicit Types (l : list (Z * A)) (kx : Z * A).

Lemma sort_insert_perm kx l : sort_insert kx l ≡ₚ kx :: l.
Proof.
  induction l as [|ky l IH]; simpl; [done|].
  destruct (kx.1 <=? ky.1); [done|].
  rewrite IH. apply Permutation_swap.
Qed.

Lemma sort_keyed_perm l : sort_keyed l ≡ₚ l.
Proof.
  induction l as [|kx l IH]; simpl; [done|].
  by rewrite sort_insert_perm, IH.
Qed.

Lemma sort_insert_sorted kx l :
  StronglySorted key_le l → StronglySorted key_le (sort_insert kx l).
Proof.
  induction 1 as [|ky l Hl IH Hall]; simpl.
  - repeat constructor.
  - destruct (Z.leb_spec kx.1 ky.1) as [Hle|Hlt].
    + constructor; [by constructor|].
      constructor; [done|].
      eapply Forall_impl; [exact Hall|].
      unfold key_le. intros z ?. lia.
    + constructor; [done|].
      rewrite sort_insert_perm. constructor; [|done].
      unfold key_le. lia.
Qed.

Lemma sort_keyed_sorted l : StronglySorted key_le (sort_keyed l).
Proof.
  induction l as [|kx l IH]; simpl; [constructor|].
  by apply sort_insert_sorted.
Qed.

(** Stability: the elements of one key keep their order. *)
Lemma sort_insert_stable (k : Z) kx l :
  filter (λ a, a.1 = k) (sort_insert kx l) = filter (λ a, a.1 = k) (kx :: l).
Proof.
  induction l as [|ky l IH]; simpl; [done|].
  destruct (Z.leb_spec kx.1 ky.1) as [Hle|Hlt]; [done|].
  rewrite (filter_cons _ ky), IH, !filter_cons.
  repeat case_decide; try done; lia.
Qed.

Lemma sort_keyed_stable (k : Z) l :
  filter (λ a, a.1 = k) (sort_keyed l) = filter (λ a, a.1 = k) l.
Proof.
  induction l as [|kx l IH]; simpl; [done|].
  by rewrite sort_insert_stable, !filter_cons, IH.
Qed.

Lemma keyed_total (f : A → result Z) (g : A → Z) (xs : list A) :
  Forall (λ x, f x = Ok (g x)) xs →
  keyed f xs = Ok ((λ x, (g x, x)) <$> xs).
Proof.
  induction 1 as [|x xs Hx _ IH]; simpl; [done|].
  rewrite Hx. simpl. rewrite IH. done.
Qed.

Lemma py_sort_total (f : A → result Z) (g : A → Z) (xs : list A) :
  Forall (λ x, f x = Ok (g x)) xs →
  ∃ ys, py_sort f xs = Ok ys ∧ ys ≡ₚ xs ∧
        StronglySorted (λ a b, g a ≤ g b) ys ∧
        ∀ k, filter (λ a, g a = k) ys = filter (λ a, g a = k) xs.
Proof.
  intros Hf. unfold py_sort. rewrite (keyed_total f g xs Hf). simpl.
  set (kl := (λ x, (g x, x)) <$> xs).
  assert (Hshape : Forall (λ a : Z * A, a.1 = g a.2) (sort_keyed kl)).
  { rewrite sort_keyed_perm. subst kl. apply Forall_fmap, Forall_true. done. }
  exists (sort_keyed kl).*2. split; [done|]. split; [|split].
  - rewrite sort_keyed_perm. subst kl.
    rewrite <- list_fmap_compose. simpl. by rewrite list_fmap_id.
  - pose proof (sort_keyed_sorted kl) as Hs.
    induction Hs as [|a l Hl IH Hall]; simpl; [constructor|].
    apply Forall_cons in Hshape as [Ha Hshape].
    constructor; [by apply IH|].
    apply Forall_fmap. apply Forall_forall. intros b Hb. simpl.
    rewrite Forall_forall in Hall, Hshape.
    rewrite <- Ha, <- (Hshape b Hb). by apply Hall.
  - intros k.
    assert (Hfl : ∀ l : list (Z * A), Forall (λ a, a.1 = g a.2) l →
              filter (λ a, g a = k) l.*2 = (filter (λ a, a.1 = k) l).*2).
    { induction 1 as [|a l Ha _ IH]; [done|].
      rewrite fmap_cons, !filter_cons, IH.
      repeat case_decide; try done; congruence. }
    rewrite Hfl by done. rewrite sort_keyed_stable.
    rewrite <- Hfl by (subst kl; apply Forall_fmap, Forall_true; done).
    subst kl. rewrite <- list_fmap_compose. simpl. by rewrite list_fmap_id.
Qed.

End sorting.

(** ** Rows built by [channel_to_model] *)

Section rows.
Implicit Types (r : gmap string value) (l : list (gmap string value)).

Lemma channel_to_model_no_engine wallet lnc :
  lnworker wallet = None →
  channel_to_model wallet lnc = Raise (AttributeError "get_node_alias").
Proof. intros H. unfold channel_to_model. by rewrite H. Qed.

Lemma channel_to_model_engine wallet lnw lnc :
  lnworker wallet = Some lnw →
  channel_to_model wallet lnc = Ok (item_of wallet lnc).
Proof.
  intros H. unfold item_of, channel_to_model. rewrite H. simpl.
  by destruct (is_backup lnc).
Qed.

Lemma channel_to_model_inv wallet lnc r :
  channel_to_model wallet lnc = Ok r →
  dom r = list_to_set ITEM_KEYS
  ∧ r !! "cid" = Some (VStr (cid_of lnc))
  ∧ r !! "state_code" = Some (VInt (get_state lnc))
  ∧ r !! "is_backup" = Some (VBool (is_backup lnc)).
Proof.
  unfold channel_to_model.
  destruct (lnworker wallet) as [lnw|]; simpl; [|done].
  destruct (is_backup lnc) eqn:Hb; intros [= <-];
    (split; [|split; [reflexivity|split; reflexivity]]);
    rewrite !dom_insert_L, dom_empty_L; unfold ITEM_KEYS;
    cbn [list_to_set foldr]; set_solver.
Qed.

Lemma adapter_row_dom r : adapter_row r → dom r = list_to_set ITEM_KEYS.
Proof. intros (w & c & H). by apply channel_to_model_inv in H as (? & _). Qed.

Lemma adapter_row_cid r : adapter_row r → ∃ cid, r !! "cid" = Some (VStr cid).
Proof.
  intros (w & c & H). apply channel_to_model_inv in H as (_ & ? & _). eauto.
Qed.

Lemma adapter_row_state_code r :
  adapter_row r → r !! "state_code" = Some (VInt (row_state_code r)).
Proof.
  intros (w & c & H). apply channel_to_model_inv in H as (_ & _ & H & _).
  unfold row_state_code. by rewrite H.
Qed.

Lemma adapter_row_is_backup r :
  adapter_row r → r !! "is_backup" = Some (VBool (row_is_backup r)).
Proof.
  intros (w & c & H). apply channel_to_model_inv in H as (_ & _ & _ & H).
  unfold row_is_backup. by rewrite H.
Qed.

Lemma adapter_row_score r :
  adapter_row r →
  chan_sort_score r
  = Ok (row_state_code r + (if row_is_backup r then 10 else 0)).
Proof.
  intros Hr. unfold chan_sort_score, py_getitem.
  rewrite (adapter_row_state_code r Hr), (adapter_row_is_backup r Hr).
  done.
Qed.

Lemma adapter_row_item_of wallet lnw lnc :
  lnworker wallet = Some lnw → adapter_row (item_of wallet lnc).
Proof. intros H. exists wallet, lnc. by eapply channel_to_model_engine. Qed.

(** [dict.update] with a dict of the same keys replaces the row. *)
Lemma update_same_keys (d old : gmap string value) :
  dom old = dom d → d ∪ old = d.
Proof.
  intros Hdom. apply map_eq. intros k. rewrite lookup_union.
  destruct (d !! k) as [v|] eqn:Hd; simpl.
  - by destruct (old !! k).
  - assert (old !! k = None) as ->; [|done].
    apply not_elem_of_dom. rewrite Hdom. by apply not_elem_of_dom.
Qed.

Lemma update_adapter_rows (d old : gmap string value) :
  adapter_row d → adapter_row old → d ∪ old = d.
Proof.
  intros Hd Ho. apply update_same_keys.
  by rewrite (adapter_row_dom _ Hd), (adapter_row_dom _ Ho).
Qed.

Lemma init_model_loop_engine wallet lnw (cs : list Channel) l :
  lnworker wallet = Some lnw →
  init_model_loop wallet cs l = Ok (l ++ (item_of wallet <$> cs)).
Proof.
  intros H. revert l.
  induction cs as [|c cs IH]; intros l; simpl.
  - by rewrite app_nil_r.
  - rewrite (channel_to_model_engine _ _ _ H). simpl.
    rewrite IH. by rewrite <- app_assoc.
Qed.

(** The first row with a given cid, for rows that have the key. *)
Lemma find_cid_Some cid l (i : nat) :
  find_cid cid l = Some i →
  ∃ r, l !! i = Some r ∧ r !! "cid" = Some (VStr cid)
       ∧ ∀ (j : nat) rj, (j < i)%nat → l !! j = Some rj →
                         rj !! "cid" ≠ Some (VStr cid).
Proof.
  revert i. induction l as [|r l IH]; intros i; simpl; [done|].
  case_bool_decide as Hr.
  - intros [= <-]. exists r. split; [done|]. split; [done|]. intros; lia.
  - destruct (find_cid cid l) as [i'|] eqn:Hf; simpl; [|done].
    intros [= <-]. destruct (IH i' eq_refl) as (r' & Hl & Hc & Hbefore).
    exists r'. split; [done|]. split; [done|].
    intros [|j] rj Hj; simpl; [by intros [= <-]|].
    apply Hbefore. lia.
Qed.

Lemma find_cid_None cid l :
  find_cid cid l = None → Forall (λ r, r !! "cid" ≠ Some (VStr cid)) l.
Proof.
  induction l as [|r l IH]; simpl; [constructor|].
  case_bool_decide as Hr; [done|].
  destruct (find_cid cid l); simpl; [done|].
  intros _. constructor; [done|]. by apply IH.
Qed.

Lemma find_cid_split cid l (i : nat) :
  find_cid cid l = Some i →
  ∃ pre r post, l = pre ++ r :: post ∧ length pre = i
    ∧ r !! "cid" = Some (VStr cid)
    ∧ Forall (λ r', r' !! "cid" ≠ Some (VStr cid)) pre.
Proof.
  revert i. induction l as [|r l IH]; intros i; simpl; [done|].
  case_bool_decide as Hr.
  - intros [= <-]. by exists [], r, l.
  - destruct (find_cid cid l) as [i'|] eqn:Hf; simpl; [|done].
    intros [= <-]. destruct (IH i' eq_refl) as (pre & r' & post & -> & Hlen & Hc & Hpre).
    exists (r :: pre), r', post. simpl. repeat split; auto.
Qed.

Lemma find_channel_Some cid (cs : list Channel) c :
  find_channel cid cs = Some c → c ∈ cs ∧ cid_of c = cid.
Proof.
  induction cs as [|c' cs IH]; simpl; [done|].
  destruct (String.eqb_spec cid (cid_of c')) as [->|Hne].
  - intros [= <-]. split; [left|done].
  - intros H. destruct (IH H). split; [by right|done].
Qed.

Lemma find_channel_None cid (cs : list Channel) :
  find_channel cid cs = None → Forall (λ c, cid_of c ≠ cid) cs.
Proof.
  induction cs as [|c' cs IH]; simpl; [constructor|].
  destruct (String.eqb_spec cid (cid_of c')) as [->|Hne]; [done|].
  intros H. constructor; [done|]. by apply IH.
Qed.

End rows.

(** ** Running the slots *)

Ltac mrun :=
  unfold mbind, mret, M_bind, M_ret, lift, emit, log, get_channels,
    set_channels; cbn [channels signals logged fst snd].

Section slots.
Implicit Types (r : gmap string value) (l : list (gmap string value)).
Implicit Types (s : QEChannelListModel).

Lemma init_model_no_engine wallet s :
  lnworker wallet = None →
  init_model wallet s
  = (Ok (), mkModel (channels s) (signals s)
              (logged s ++ [LogDebug "init_model";
                            LogWarning "lnworker should be defined"])).
Proof.
  intros H. unfold init_model. rewrite H. mrun.
  by rewrite <- app_assoc.
Qed.

Lemma init_model_engine wallet lnw s :
  lnworker wallet = Some lnw →
  ∃ l, py_sort chan_sort_score (item_of wallet <$> values (get_channel_objects lnw))
       = Ok l
    ∧ l ≡ₚ item_of wallet <$> values (get_channel_objects lnw)
    ∧ init_model wallet s
      = (Ok (), mkModel (Some l)
                  (signals s ++ [BeginResetModel; EndResetModel;
                                 BeginInsertRows 0 (Z.of_nat (length l) - 1);
                                 EndInsertRows; CountChanged])
                  (logged s ++ [LogDebug "init_model"])).
Proof.
  intros H.
  set (items := item_of wallet <$> values (get_channel_objects lnw)).
  destruct (py_sort_total chan_sort_score
              (λ r, row_state_code r + (if row_is_backup r then 10 else 0)) items)
    as (l & Hsort & Hperm & _).
  { subst items. apply Forall_fmap, Forall_forall. intros c _. simpl.
    apply adapter_row_score. by eapply adapter_row_item_of. }
  exists l. split; [done|]. split; [done|].
  unfold init_model. rewrite H. mrun.
  rewrite (init_model_loop_engine _ _ _ _ H). simpl.
  fold items. rewrite Hsort. unfold clear. mrun.
  by rewrite <- !app_assoc.
Qed.

Lemma init_model_sorted wallet lnw s :
  lnworker wallet = Some lnw →
  ∃ l, init_model wallet s
       = (Ok (), mkModel (Some l)
                   (signals s ++ [BeginResetModel; EndResetModel;
                                  BeginInsertRows 0 (Z.of_nat (length l) - 1);
                                  EndInsertRows; CountChanged])
                   (logged s ++ [LogDebug "init_model"]))
    ∧ l ≡ₚ item_of wallet <$> values (get_channel_objects lnw)
    ∧ StronglySorted score_le l.
Proof.
  intros H.
  destruct (init_model_engine wallet lnw s H) as (l & Hsort & Hperm & Hrun).
  exists l. split; [done|]. split; [done|].
  destruct (py_sort_total chan_sort_score
              (λ r, row_state_code r + (if row_is_backup r then 10 else 0))
              (item_of wallet <$> values (get_channel_objects lnw)))
    as (l' & Hsort' & _ & Hsorted & _).
  { apply Forall_fmap, Forall_forall. intros c _. simpl.
    apply adapter_row_score. by eapply adapter_row_item_of. }
  rewrite Hsort in Hsort'. injection Hsort' as <-. exact Hsorted.
Qed.

Lemma do_update_engine wallet lnw channel s l (i : nat) old :
  lnworker wallet = Some lnw →
  channels s = Some l → l !! i = Some old → adapter_row old →
  do_update wallet (Z.of_nat i) channel s
  = (Ok (), mkModel (Some (<[i := item_of wallet channel]> l))
              (signals s ++ [DataChanged (Z.of_nat i) (Z.of_nat i) _ROLE_KEYS;
                             NumOpenChannelsChanged])
              (logged s ++ [LogDebug ("updating our channel "
                                      +:+ short_id_for_GUI channel)])).
Proof.
  intros Hw Hs Hi Hold. unfold do_update, update_item. mrun.
  rewrite Hs. rewrite (py_index_nat _ _ _ Hi).
  rewrite (channel_to_model_engine _ _ _ Hw). mrun.
  rewrite py_norm_index_nat by (by eapply lookup_lt_Some).
  rewrite Hi. mrun.
  rewrite update_adapter_rows; [|by eapply adapter_row_item_of|done].
  by rewrite <- !app_assoc.
Qed.

Lemma do_update_no_engine wallet channel s l (i : nat) old :
  lnworker wallet = None →
  channels s = Some l → l !! i = Some old →
  do_update wallet (Z.of_nat i) channel s
  = (Raise (AttributeError "get_node_alias"),
     mkModel (Some l) (signals s)
       (logged s ++ [LogDebug ("updating our channel "
                               +:+ short_id_for_GUI channel)])).
Proof.
  intros Hw Hs Hi. unfold do_update. mrun.
  rewrite Hs. rewrite (py_index_nat _ _ _ Hi).
  by rewrite (channel_to_model_no_engine _ _ Hw).
Qed.

Lemma on_channel_updated_loop_skip wallet channel (pre iter : list _) (i : Z) s :
  Forall adapter_row pre →
  Forall (λ r, r !! "cid" ≠ Some (VStr (cid_of channel))) pre →
  on_channel_updated_loop wallet channel (pre ++ iter) i s
  = on_channel_updated_loop wallet channel iter (i + Z.of_nat (length pre)) s.
Proof.
  intros Hrows Hne. revert i.
  induction pre as [|r pre IH]; intros i; simpl.
  - by rewrite Z.add_0_r.
  - apply Forall_cons in Hrows as [Hr Hrows].
    apply Forall_cons in Hne as [Hc Hne].
    destruct (adapter_row_cid r Hr) as (c & Hcid).
    mrun. unfold py_getitem. rewrite Hcid. mrun. cbn [py_eq].
    destruct (String.eqb_spec c (bytes_hex (channel_id channel))) as [->|_].
    + by destruct Hc.
    + rewrite (IH Hrows Hne). f_equal. lia.
Qed.

Lemma on_channel_updated_absent wallet channel s l :
  channels s = Some l → Forall adapter_row l →
  find_cid (cid_of channel) l = None →
  on_channel_updated wallet channel s = (Ok (), s).
Proof.
  intros Hs Hrows Hf. unfold on_channel_updated. mrun. rewrite Hs.
  rewrite <- (app_nil_r l).
  rewrite on_channel_updated_loop_skip; [done|done|].
  by apply find_cid_None.
Qed.

Lemma on_channel_updated_hit wallet channel s l (i : nat) :
  channels s = Some l → Forall adapter_row l →
  find_cid (cid_of channel) l = Some i →
  on_channel_updated wallet channel s
  = do_update wallet (Z.of_nat i) channel s.
Proof.
  intros Hs Hrows Hf. unfold on_channel_updated. mrun. rewrite Hs.
  destruct (find_cid_split _ _ _ Hf) as (pre & r & post & -> & <- & Hc & Hpre).
  apply Forall_app in Hrows as [Hrows _].
  rewrite on_channel_updated_loop_skip by done.
  simpl. mrun. unfold py_getitem. rewrite Hc.
  unfold cid_of. by rewrite py_eq_refl.
Qed.

Lemma remove_channel_loop_skip cid (pre iter : list _) (i : Z) s :
  Forall adapter_row pre →
  Forall (λ r, r !! "cid" ≠ Some (VStr cid)) pre →
  remove_channel_loop cid (pre ++ iter) i s
  = remove_channel_loop cid iter (i + Z.of_nat (length pre)) s.
Proof.
  intros Hrows Hne. revert i.
  induction pre as [|r pre IH]; intros i; simpl.
  - by rewrite Z.add_0_r.
  - apply Forall_cons in Hrows as [Hr Hrows].
    apply Forall_cons in Hne as [Hc Hne].
    destruct (adapter_row_cid r Hr) as (c & Hcid).
    mrun. unfold py_getitem. rewrite Hcid. mrun. cbn [py_eq].
    destruct (String.eqb_spec cid c) as [->|_].
    + by destruct Hc.
    + rewrite (IH Hrows Hne). f_equal. lia.
Qed.

Lemma py_list_remove_first (pre post : list _) r :
  Forall (λ y, dict_eqb y r = false) pre →
  py_list_remove (pre ++ r :: post) r = Ok (pre ++ post).
Proof.
  induction 1 as [|y pre Hy _ IH]; simpl.
  - by rewrite dict_eqb_refl.
  - rewrite Hy, IH. done.
Qed.

Lemma dict_eqb_other_cid cid (y r : gmap string value) :
  adapter_row y → y !! "cid" ≠ Some (VStr cid) → r !! "cid" = Some (VStr cid) →
  dict_eqb y r = false.
Proof.
  intros Hy Hne Hr. destruct (dict_eqb y r) eqn:E; [|done].
  destruct (adapter_row_cid y Hy) as (c & Hc).
  destruct (dict_eqb_lookup _ _ _ _ E Hc) as (v' & Hv' & Heq).
  apply py_eq_str_l in Heq. subst v'.
  rewrite Hr in Hv'. injection Hv' as ->. by destruct Hne.
Qed.

Lemma remove_channel_absent cid s l :
  channels s = Some l → Forall adapter_row l →
  find_cid cid l = None →
  remove_channel cid s
  = (Ok (), mkModel (Some l) (signals s)
              (logged s ++ [LogDebug ("remove channel with cid " +:+ cid)])).
Proof.
  intros Hs Hrows Hf. unfold remove_channel. mrun. rewrite Hs. mrun.
  rewrite <- (app_nil_r l) at 1.
  rewrite remove_channel_loop_skip; [done|done|].
  by apply find_cid_None.
Qed.

Lemma remove_channel_hit cid s l (i : nat) :
  channels s = Some l → Forall adapter_row l →
  find_cid cid l = Some i →
  remove_channel cid s
  = (Ok (), mkModel (Some (delete i l))
              (signals s ++ [BeginRemoveRows (Z.of_nat i) (Z.of_nat i);
                             EndRemoveRows; CountChanged])
              (logged s ++ [LogDebug ("remove channel with cid " +:+ cid);
                            LogDebug cid])).
Proof.
  intros Hs Hrows Hf. unfold remove_channel. mrun. rewrite Hs. mrun.
  destruct (find_cid_split _ _ _ Hf) as (pre & r & post & -> & <- & Hc & Hpre).
  apply Forall_app in Hrows as [Hrows _].
  rewrite remove_channel_loop_skip by done.
  simpl. mrun. unfold py_getitem. rewrite Hc. mrun. cbn [py_eq].
  rewrite String.eqb_refl. mrun.
  rewrite py_list_remove_first.
  - mrun. rewrite delete_middle. by rewrite <- !app_assoc.
  - rewrite Forall_forall in Hrows, Hpre. apply Forall_forall. intros y Hy.
    eapply dict_eqb_other_cid; eauto.
Qed.

Lemma new_channel_loop_engine wallet lnw cid (cs : list Channel) s l :
  lnworker wallet = Some lnw → channels s = Some l →
  new_channel_loop wallet cid cs s
  = match find_channel cid cs with
    | Some c =>
        (Ok (), mkModel (Some (item_of wallet c :: l))
                  (signals s ++ [BeginInsertRows 0 0; EndInsertRows; CountChanged])
                  (logged s ++ [LogDebugItem (item_of wallet c)]))
    | None => (Ok (), s)
    end.
Proof.
  intros Hw Hs. induction cs as [|c cs IH]; simpl; [done|].
  unfold cid_of. destruct (cid =? bytes_hex (channel_id c))%string; [|done].
  mrun. rewrite (channel_to_model_engine _ _ _ Hw). mrun.
  rewrite Hs. mrun. by rewrite <- !app_assoc.
Qed.

Lemma new_channel_engine wallet lnw cid s l :
  lnworker wallet = Some lnw → channels s = Some l →
  new_channel wallet cid s
  = match find_channel cid (values (lnworker_channels lnw)) with
    | Some c =>
        (Ok (), mkModel (Some (item_of wallet c :: l))
                  (signals s ++ [BeginInsertRows 0 0; EndInsertRows; CountChanged])
                  (logged s ++ [LogDebug ("new channel with cid " +:+ cid);
                                LogDebugItem (item_of wallet c)]))
    | None =>
        (Ok (), mkModel (Some l) (signals s)
                  (logged s ++ [LogDebug ("new channel with cid " +:+ cid)]))
    end.
Proof.
  intros Hw Hs. unfold new_channel. mrun. rewrite Hw. mrun.
  erewrite new_channel_loop_engine; [|done|done].
  destruct (find_channel _ _); mrun; [|by rewrite Hs].
  by rewrite <- !app_assoc.
Qed.

Lemma new_channel_no_engine wallet cid s :
  lnworker wallet = None →
  new_channel wallet cid s
  = (Raise (AttributeError "channels"),
     mkModel (channels s) (signals s)
       (logged s ++ [LogDebug ("new channel with cid " +:+ cid)])).
Proof. intros Hw. unfold new_channel. mrun. by rewrite Hw. Qed.

End slots.

(** ** The row list across slots *)

Section states.
Implicit Types (r : gmap string value) (l : list (gmap string value)).
Implicit Types (s : QEChannelListModel).

Lemma StronglySorted_ordered_by (R : relation (gmap string value)) l :
  StronglySorted R l → ordered_by R l.
Proof.
  induction 1 as [|r l Hl IH Hall]; intros i j ri rj Hij Hi Hj.
  - by rewrite lookup_nil in Hi.
  - destruct j as [|j]; [lia|]. simpl in Hj. destruct i as [|i]; simpl in Hi.
    + injection Hi as <-. rewrite Forall_forall in Hall. apply Hall.
      by eapply list_elem_of_lookup_2.
    + eapply (IH i j); [lia|done|done].
Qed.

Lemma state_code_flags open l :
  Forall adapter_row l →
  mapM (open_flag open) l
  = Ok ((λ r, if row_state_code r =? open then 1 else 0) <$> l).
Proof.
  induction 1 as [|r l Hr _ IH]; [done|].
  rewrite fmap_cons.
  change (mapM ?f (r :: l)) with (y ← f r; k ← mapM f l; mret (y :: k)).
  rewrite IH. unfold open_flag, py_getitem.
  by rewrite (adapter_row_state_code r Hr).
Qed.

Lemma sum_flags_count open l :
  Forall adapter_row l →
  py_sum ((λ r, if row_state_code r =? open then 1 else 0) <$> l)
  = count_open open l.
Proof.
  unfold count_open, py_sum.
  induction 1 as [|r l Hr _ IH]; [done|].
  rewrite fmap_cons, filter_cons. cbn [foldl].
  rewrite py_sum_flags_acc. unfold py_sum. rewrite IH.
  rewrite (adapter_row_state_code r Hr).
  destruct (Z.eqb_spec (row_state_code r) open) as [->|Hne].
  - rewrite decide_True by done. cbn [length]. lia.
  - rewrite decide_False by congruence. lia.
Qed.

Lemma numOpenChannels_rows open s l :
  channels s = Some l → Forall adapter_row l →
  numOpenChannels open s = (Ok (count_open open l), s).
Proof.
  intros Hs Hrows. unfold numOpenChannels. mrun. rewrite Hs.
  rewrite (state_code_flags open l Hrows). mrun.
  by rewrite (sum_flags_count open l Hrows).
Qed.

Lemma role_rmap_None (role : string) :
  _ROLE_RMAP !! role = None ↔ role ∉ _ROLE_NAMES.
Proof.
  unfold _ROLE_RMAP. rewrite <- not_elem_of_list_to_map.
  rewrite fmap_reverse, elem_of_reverse.
  by rewrite fst_zip by (vm_compute; lia).
Qed.

Lemma filterModel_raises (role : string) (m : value) :
  raises (filterModel role m) ↔ role ∉ _ROLE_NAMES.
Proof.
  rewrite <- role_rmap_None. unfold filterModel.
  destruct (_ROLE_RMAP !! role); simpl; split; try done.
Qed.

(** What a slot leaves in [self.channels], when the list holds rows of the
    adapter. *)
Lemma rebuild_channels wallet s :
  match lnworker wallet with
  | None => channels (init_model wallet s).2 = channels s
  | Some lnw =>
      ∃ l, channels (init_model wallet s).2 = Some l
           ∧ l ≡ₚ item_of wallet <$> values (get_channel_objects lnw)
  end.
Proof.
  destruct (lnworker wallet) as [lnw|] eqn:Hw.
  - destruct (init_model_engine wallet lnw s Hw) as (l & _ & Hperm & ->).
    by exists l.
  - by rewrite (init_model_no_engine wallet s Hw).
Qed.

Lemma update_channels wallet channel s l :
  channels s = Some l → Forall adapter_row l →
  channels (on_channel_updated wallet channel s).2 = Some l
  ∨ ∃ (i : nat) lnw, find_cid (cid_of channel) l = Some i
      ∧ lnworker wallet = Some lnw
      ∧ channels (on_channel_updated wallet channel s).2
        = Some (<[i := item_of wallet channel]> l).
Proof.
  intros Hs Hrows.
  destruct (find_cid (cid_of channel) l) as [i|] eqn:Hf.
  - rewrite (on_channel_updated_hit _ _ _ _ _ Hs Hrows Hf).
    destruct (find_cid_Some _ _ _ Hf) as (old & Hi & _ & _).
    destruct (lnworker wallet) as [lnw|] eqn:Hw.
    + right. exists i, lnw. split; [done|]. split; [done|].
      erewrite do_update_engine; [done|done|done|done|].
      rewrite Forall_forall in Hrows. apply Hrows.
      by eapply list_elem_of_lookup_2.
    + left. by erewrite do_update_no_engine.
  - left. by rewrite (on_channel_updated_absent _ _ _ _ Hs Hrows Hf).
Qed.

Lemma insert_channels wallet cid s l :
  channels s = Some l →
  channels (new_channel wallet cid s).2 = Some l
  ∨ ∃ lnw c, lnworker wallet = Some lnw
      ∧ find_channel cid (values (lnworker_channels lnw)) = Some c
      ∧ channels (new_channel wallet cid s).2 = Some (item_of wallet c :: l).
Proof.
  intros Hs. destruct (lnworker wallet) as [lnw|] eqn:Hw.
  - rewrite (new_channel_engine _ _ _ _ _ Hw Hs).
    destruct (find_channel _ _) as [c|] eqn:Hf; [|by left].
    right. by exists lnw, c.
  - left. by rewrite (new_channel_no_engine _ _ _ Hw).
Qed.

Lemma remove_channels cid s l :
  channels s = Some l → Forall adapter_row l →
  channels (remove_channel cid s).2 = Some l
  ∨ ∃ i : nat, find_cid cid l = Some i
      ∧ channels (remove_channel cid s).2 = Some (delete i l).
Proof.
  intros Hs Hrows. destruct (find_cid cid l) as [i|] eqn:Hf.
  - right. exists i. split; [done|].
    by rewrite (remove_channel_hit _ _ _ _ Hs Hrows Hf).
  - left. by rewrite (remove_channel_absent _ _ _ Hs Hrows Hf).
Qed.

(** Without a [channels] attribute the three list slots raise and leave it
    unset. *)
Lemma update_unset wallet channel s :
  channels s = None →
  on_channel_updated wallet channel s = (Raise (AttributeError "channels"), s).
Proof. intros Hs. unfold on_channel_updated. mrun. by rewrite Hs. Qed.

Lemma remove_unset cid s :
  channels s = None →
  channels (remove_channel cid s).2 = None
  ∧ (remove_channel cid s).1 = Raise (AttributeError "channels").
Proof. intros Hs. unfold remove_channel. mrun. by rewrite Hs. Qed.

Lemma insert_loop_unset wallet cid (cs : list Channel) s :
  channels s = None → channels (new_channel_loop wallet cid cs s).2 = None.
Proof.
  intros Hs. induction cs as [|c cs IH]; simpl; [done|].
  destruct (cid =? bytes_hex (channel_id c))%string; [|done].
  mrun. destruct (channel_to_model wallet c); mrun; [|done].
  by rewrite Hs.
Qed.

Lemma insert_unset wallet cid s :
  channels s = None → channels (new_channel wallet cid s).2 = None.
Proof.
  intros Hs. unfold new_channel. mrun.
  destruct (lnworker wallet); mrun; [|done].
  by apply insert_loop_unset.
Qed.

End states.

(** ** Invariants of the row list *)

Section invariants.
Implicit Types (r : gmap string value) (l : list (gmap string value)).
Implicit Types (s : QEChannelListModel).

Lemma adapter_rows_slot s o : adapter_rows s → adapter_rows (run_slot o s).2.
Proof.
  intros Hinv l' Hl'. destruct o as [w|w c|w cid|cid]; simpl in Hl'.
  - pose proof (rebuild_channels w s) as H.
    destruct (lnworker w) as [lnw|] eqn:Hw.
    + destruct H as (l & Hl & Hperm). rewrite Hl in Hl'. injection Hl' as <-.
      rewrite Hperm. apply Forall_fmap, Forall_forall. intros c _.
      by eapply adapter_row_item_of.
    + rewrite H in Hl'. by apply Hinv.
  - destruct (channels s) as [l|] eqn:Hs.
    + destruct (update_channels w c s l Hs (Hinv l Hs))
        as [H|(i & lnw & _ & Hw & H)]; rewrite H in Hl'; injection Hl' as <-.
      * by apply Hinv.
      * apply Forall_insert; [by apply Hinv|by eapply adapter_row_item_of].
    + rewrite (update_unset w c s Hs) in Hl'. simpl in Hl'. congruence.
  - destruct (channels s) as [l|] eqn:Hs.
    + destruct (insert_channels w cid s l Hs)
        as [H|(lnw & c & Hw & _ & H)]; rewrite H in Hl'; injection Hl' as <-.
      * by apply Hinv.
      * constructor; [by eapply adapter_row_item_of|by apply Hinv].
    + by rewrite (insert_unset w cid s Hs) in Hl'.
  - destruct (channels s) as [l|] eqn:Hs.
    + destruct (remove_channels cid s l Hs (Hinv l Hs))
        as [H|(i & _ & H)]; rewrite H in Hl'; injection Hl' as <-.
      * by apply Hinv.
      * by apply Forall_delete, Hinv.
    + by destruct (remove_unset cid s Hs) as [-> _] in Hl'.
Qed.

Lemma adapter_rows_init wallet : adapter_rows (__init__ wallet).2.
Proof.
  intros l Hl. unfold __init__ in Hl.
  pose proof (rebuild_channels wallet new_model) as H.
  destruct (lnworker wallet) as [lnw|] eqn:Hw.
  - destruct H as (l' & Hl' & Hperm). rewrite Hl' in Hl. injection Hl as <-.
    rewrite Hperm. apply Forall_fmap, Forall_forall. intros c _.
    by eapply adapter_row_item_of.
  - by rewrite H in Hl.
Qed.

Lemma reachable_adapter_rows s : reachable s → adapter_rows s.
Proof.
  induction 1 as [w|s o _ IH].
  - apply adapter_rows_init.
  - by apply adapter_rows_slot.
Qed.

Lemma item_of_cid wallet lnw c :
  lnworker wallet = Some lnw →
  row_cid (item_of wallet c) = Some (VStr (cid_of c)).
Proof.
  intros Hw. pose proof (channel_to_model_engine _ _ c Hw) as H.
  by apply channel_to_model_inv in H as (_ & ? & _).
Qed.

Lemma keyed_by_id_cids wallet lnw (d : list (list byte * Channel)) :
  lnworker wallet = Some lnw → keyed_by_id d →
  NoDup (row_cid <$> (item_of wallet <$> values d)).
Proof.
  intros Hw [Hnodup Hkeys]. rewrite <- list_fmap_compose.
  rewrite (list_fmap_ext _ (λ c, Some (VStr (cid_of c))) (values d))
    by (intros; simpl; by eapply item_of_cid).
  unfold values.
  assert (Hids : channel_id <$> d.*2 = d.*1).
  { clear Hnodup. induction Hkeys as [|[k c] d Hk _ IH]; [done|].
    rewrite !fmap_cons. cbn [fst snd] in Hk |- *. by rewrite Hk, IH. }
  apply (NoDup_fmap_2_strong _ d.*2).
  - intros c1 c2 H1 H2 [= Heq]. apply bytes_hex_inj in Heq.
    rewrite <- Hids in Hnodup.
    apply list_elem_of_lookup in H1 as [i1 H1].
    apply list_elem_of_lookup in H2 as [i2 H2].
    assert (i1 = i2) as <-; [|congruence].
    eapply (NoDup_lookup _ _ _ (channel_id c1) Hnodup).
    + by rewrite list_lookup_fmap, H1.
    + by rewrite list_lookup_fmap, H2, Heq.
  - rewrite <- Hids in Hnodup. by apply NoDup_fmap_1 in Hnodup.
Qed.

Lemma unique_rows_slot s o :
  unique_rows s → keeps_cids_apart s o → unique_rows (run_slot o s).2.
Proof.
  intros Hinv Hok l' Hl'.
  assert (Hrows : adapter_rows s) by (intros l Hl; by apply Hinv).
  split; [by apply (adapter_rows_slot s o Hrows)|].
  destruct o as [w|w c|w cid|cid]; simpl in Hl', Hok.
  - pose proof (rebuild_channels w s) as H.
    destruct (lnworker w) as [lnw|] eqn:Hw.
    + destruct H as (l & Hl & Hperm). rewrite Hl in Hl'. injection Hl' as <-.
      unfold unique_cids. rewrite Hperm.
      eapply keyed_by_id_cids; [done|]. by apply (Hok lnw Hw).
    + rewrite H in Hl'. by apply Hinv.
  - destruct (channels s) as [l|] eqn:Hs.
    + destruct (Hinv l Hs) as [Hrl Hul].
      destruct (update_channels w c s l Hs Hrl)
        as [H|(i & lnw & Hf & Hw & H)]; rewrite H in Hl'; injection Hl' as <-;
        [done|].
      unfold unique_cids. rewrite list_fmap_insert.
      rewrite list_insert_id; [done|].
      destruct (find_cid_Some _ _ _ Hf) as (old & Hi & Hc & _).
      rewrite list_lookup_fmap, Hi. simpl.
      rewrite (item_of_cid _ _ _ Hw). unfold row_cid. by rewrite Hc.
    + rewrite (update_unset w c s Hs) in Hl'. simpl in Hl'. congruence.
  - destruct (channels s) as [l|] eqn:Hs.
    + destruct (Hinv l Hs) as [Hrl Hul].
      destruct (insert_channels w cid s l Hs)
        as [H|(lnw & c & Hw & Hf & H)]; rewrite H in Hl'; injection Hl' as <-;
        [done|].
      unfold unique_cids. rewrite fmap_cons. apply NoDup_cons. split; [|done].
      rewrite (item_of_cid _ _ _ Hw).
      apply find_channel_Some in Hf as [_ ->].
      simpl in Hok. apply find_cid_None in Hok.
      rewrite list_elem_of_fmap. intros (r & Hr & Hin).
      rewrite Forall_forall in Hok. by apply (Hok r Hin).
    + by rewrite (insert_unset w cid s Hs) in Hl'.
  - destruct (channels s) as [l|] eqn:Hs.
    + destruct (Hinv l Hs) as [Hrl Hul].
      destruct (remove_channels cid s l Hs Hrl)
        as [H|(i & _ & H)]; rewrite H in Hl'; injection Hl' as <-; [done|].
      unfold unique_cids. rewrite list_fmap_delete.
      eapply sublist_NoDup; [exact Hul|]. apply sublist_delete.
    + by destruct (remove_unset cid s Hs) as [-> _] in Hl'.
Qed.

Lemma unique_rows_init wallet :
  wallet_keyed wallet → unique_rows (__init__ wallet).2.
Proof.
  intros Hk l Hl. split; [by apply (adapter_rows_init wallet)|].
  unfold __init__ in Hl.
  pose proof (rebuild_channels wallet new_model) as H.
  destruct (lnworker wallet) as [lnw|] eqn:Hw.
  - destruct H as (l' & Hl' & Hperm). rewrite Hl' in Hl. injection Hl as <-.
    unfold unique_cids. rewrite Hperm.
    eapply keyed_by_id_cids; [done|]. by apply (Hk lnw Hw).
  - by rewrite H in Hl.
Qed.

End invariants.

(** ** The sample wallet *)

Ltac concrete_not_in :=
  let H := fresh in
  intros H; repeat (apply elem_of_cons in H as [H|H]; [discriminate H|]);
  by apply elem_of_nil in H.

Ltac concrete_nodup :=
  repeat (apply NoDup_cons; split; [concrete_not_in|]); apply NoDup_nil_2.

Section sample.

Lemma sample_channels : channels sample_model = Some sample_rows.
Proof. reflexivity. Qed.

Lemma sample_rows_adapter : Forall adapter_row sample_rows.
Proof.
  repeat constructor.
  - exists sample_wallet, chan_open. reflexivity.
  - exists sample_wallet, chan_backup. reflexivity.
Qed.

Lemma sample_wallet_keyed : wallet_keyed sample_wallet.
Proof.
  intros lnw [= <-]. split; (split; [concrete_nodup|]);
    repeat (apply Forall_cons; split; [reflexivity|]); apply Forall_nil_2.
Qed.

Lemma sample_reachable : reachable sample_model.
Proof. apply reachable_init. Qed.

End sample.

(** ** Properties of the adapter *)

(** C10: for a channel whose backup flag is set, the row built by
    [channel_to_model] has empty (zero) spendable, receivable, local-balance
    and remote-balance amounts and takes its imported flag from the channel
    object; for a channel whose backup flag is not set, the imported flag of
    the row is false. *)
Theorem channel_to_model_backup_fields (lnw : LNWorker) (lnc : Channel) :
  ∃ r, channel_to_model (mkWallet (Some lnw)) lnc = Ok r
    ∧ r !! "is_backup" = Some (VBool (is_backup lnc))
    ∧ if is_backup lnc then
        r !! "can_send" = Some (VAmount QEAmount_new)
        ∧ r !! "can_receive" = Some (VAmount QEAmount_new)
        ∧ r !! "local_capacity" = Some (VAmount QEAmount_new)
        ∧ r !! "remote_capacity" = Some (VAmount QEAmount_new)
        ∧ QEAmount_isEmpty QEAmount_new = true
        ∧ r !! "is_imported" = Some (VBool (is_imported lnc))
      else
        r !! "is_imported" = Some (VBool false).
Proof.
  unfold channel_to_model. simpl.
  destruct (is_backup lnc); eexists; (split; [reflexivity|]);
    repeat split.
Qed.

(** C1: the rows built by [channel_to_model] carry the fourteen keys of
    [ITEM_KEYS] only.  The seven role names [initiator], [l_csv_delay],
    [r_csv_delay], [send_frozen], [receive_frozen], [type] and [funding_tx]
    are roles of the model but are no key of any row, and [data] raises
    KeyError on each of them. *)
Theorem data_unset_role_KeyError (lnw : LNWorker) (lnc : Channel)
    (sg : list Signal) (lg : list LogRecord) :
  ∃ r, channel_to_model (mkWallet (Some lnw)) lnc = Ok r
    ∧ (∀ name, name ∈ ITEM_KEYS → is_Some (r !! name))
    ∧ UNSET_ROLE_NAMES
      = ["initiator"; "l_csv_delay"; "r_csv_delay"; "send_frozen";
         "receive_frozen"; "type"; "funding_tx"]
    ∧ ∀ name, name ∈ UNSET_ROLE_NAMES →
        r !! name = None
        ∧ ∃ role, _ROLE_RMAP !! name = Some role
            ∧ (data 0 role (mkModel (Some [r]) sg lg)).1
              = Raise (KeyError name).
Proof.
  unfold channel_to_model. simpl.
  destruct (is_backup lnc); eexists; (split; [reflexivity|]);
    (split; [|split; [by vm_compute|]]); intros name Hin.
  1,3: unfold ITEM_KEYS in Hin;
       repeat (apply elem_of_cons in Hin as [->|Hin]; [by eexists|]);
       by apply elem_of_nil in Hin.
  all: vm_compute in Hin;
       repeat (apply elem_of_cons in Hin as [->|Hin];
               [split; [reflexivity|eexists; split; by vm_compute]|]);
       by apply elem_of_nil in Hin.
Qed.

(** C9: when the wallet has no Lightning engine, a rebuild returns without
    raising, leaves the row list as it was, emits no notification, and logs
    the warning (after the debug line every rebuild starts with). *)
Theorem rebuild_without_engine (wallet : Wallet) (s : QEChannelListModel) :
  lnworker wallet = None →
  (init_model wallet s).1 = Ok ()
  ∧ channels (init_model wallet s).2 = channels s
  ∧ signals (init_model wallet s).2 = signals s
  ∧ logged (init_model wallet s).2
    = logged s ++ [LogDebug "init_model";
                   LogWarning "lnworker should be defined"].
Proof. intros H. by rewrite (init_model_no_engine wallet s H). Qed.

Lemma rebuild_without_engine_witness :
  lnworker plain_wallet = None
  ∧ (init_model plain_wallet sample_model).1 = Ok ()
  ∧ channels (init_model plain_wallet sample_model).2 = channels sample_model
  ∧ signals (init_model plain_wallet sample_model).2 = signals sample_model
  ∧ logged (init_model plain_wallet sample_model).2
    = logged sample_model ++ [LogDebug "init_model";
                              LogWarning "lnworker should be defined"].
Proof.
  split; [reflexivity|].
  apply (rebuild_without_engine plain_wallet sample_model). reflexivity.
Defined.

(** C4, as the code has it: with a Lightning engine holding N channel
    objects, a rebuild replaces the list by exactly N rows, one per channel
    object, in ascending order of the sort score, which is the state code
    plus 10 for a backup.  So of two rows with the same state code the one
    that is no backup comes first, and of two rows with the same backup flag
    the one with the smaller state code comes first; a backup row with a
    smaller state code may follow a row that is no backup. *)
Theorem rebuild_sorted_by_score (wallet : Wallet) (lnw : LNWorker)
    (s : QEChannelListModel) :
  lnworker wallet = Some lnw →
  ∃ l, init_model wallet s
       = (Ok (), mkModel (Some l)
                   (signals s ++ [BeginResetModel; EndResetModel;
                                  BeginInsertRows 0 (Z.of_nat (length l) - 1);
                                  EndInsertRows; CountChanged])
                   (logged s ++ [LogDebug "init_model"]))
    ∧ length l = length (get_channel_objects lnw)
    ∧ l ≡ₚ item_of wallet <$> values (get_channel_objects lnw)
    ∧ (∀ c, channel_to_model wallet c = Ok (item_of wallet c))
    ∧ ordered_by score_le l
    ∧ ordered_by (λ ri rj, row_state_code ri = row_state_code rj →
                           row_is_backup ri = true → row_is_backup rj = true) l
    ∧ ordered_by (λ ri rj, row_is_backup ri = row_is_backup rj →
                           row_state_code ri ≤ row_state_code rj) l.
Proof.
  intros Hw.
  destruct (init_model_sorted wallet lnw s Hw) as (l & Hrun & Hperm & Hsorted).
  exists l. split; [done|].
  split; [rewrite Hperm; unfold values; by rewrite !length_fmap|].
  split; [done|].
  split; [intros c; by eapply channel_to_model_engine|].
  pose proof (StronglySorted_ordered_by _ _ Hsorted) as Hord.
  split; [done|]. split.
  - intros i j ri rj Hij Hi Hj Hsc Hb.
    specialize (Hord i j ri rj Hij Hi Hj). unfold score_le in Hord.
    rewrite Hsc, Hb in Hord. destruct (row_is_backup rj); [done|lia].
  - intros i j ri rj Hij Hi Hj Hb.
    specialize (Hord i j ri rj Hij Hi Hj). unfold score_le in Hord.
    rewrite Hb in Hord. lia.
Qed.

Lemma rebuild_sorted_by_score_witness :
  lnworker sample_wallet = Some sample_lnworker
  ∧ ∃ l, init_model sample_wallet new_model
         = (Ok (), mkModel (Some l)
                     (signals new_model
                      ++ [BeginResetModel; EndResetModel;
                          BeginInsertRows 0 (Z.of_nat (length l) - 1);
                          EndInsertRows; CountChanged])
                     (logged new_model ++ [LogDebug "init_model"]))
      ∧ length l = length (get_channel_objects sample_lnworker)
      ∧ l ≡ₚ item_of sample_wallet <$> values (get_channel_objects sample_lnworker)
      ∧ (∀ c, channel_to_model sample_wallet c = Ok (item_of sample_wallet c))
      ∧ ordered_by score_le l
      ∧ ordered_by (λ ri rj, row_state_code ri = row_state_code rj →
                             row_is_backup ri = true → row_is_backup rj = true) l
      ∧ ordered_by (λ ri rj, row_is_backup ri = row_is_backup rj →
                             row_state_code ri ≤ row_state_code rj) l.
Proof.
  split; [reflexivity|].
  apply (rebuild_sorted_by_score sample_wallet sample_lnworker new_model).
  reflexivity.
Defined.

(** C4 as stated fails: the sample engine holds a backup in state 1 and a
    channel in state 3 that is no backup; after a rebuild the row of state
    code 3 precedes the row of state code 1. *)
Lemma rebuild_not_sorted_by_state_then_backup :
  ∃ l, channels (init_model sample_wallet new_model).2 = Some l
    ∧ length l = length (get_channel_objects sample_lnworker)
    ∧ ¬ ordered_by state_then_backup_le l.
Proof.
  eexists. split; [reflexivity|]. split; [reflexivity|].
  intros Hord.
  destruct (Hord 0%nat 1%nat _ _ ltac:(lia) eq_refl eq_refl) as [H|[H _]];
    vm_compute in H; discriminate H.
Qed.

(** C5: when the id of the channel matches a row, [on_channel_updated]
    replaces exactly the first such row by the row computed from the channel
    object, leaves every other row and the length of the list as they were,
    and emits one dataChanged for that row and numOpenChannelsChanged. *)
Theorem update_changes_one_row (wallet : Wallet) (lnw : LNWorker)
    (channel : Channel) (s : QEChannelListModel)
    (l : list (gmap string value)) (i : nat) :
  lnworker wallet = Some lnw →
  channels s = Some l → Forall adapter_row l →
  find_cid (cid_of channel) l = Some i →
  ∃ r, channel_to_model wallet channel = Ok r
    ∧ on_channel_updated wallet channel s
      = (Ok (), mkModel (Some (<[i := r]> l))
                  (signals s ++ [DataChanged (Z.of_nat i) (Z.of_nat i) _ROLE_KEYS;
                                 NumOpenChannelsChanged])
                  (logged s ++ [LogDebug ("updating our channel "
                                          +:+ short_id_for_GUI channel)]))
    ∧ length (<[i := r]> l) = length l
    ∧ <[i := r]> l !! i = Some r
    ∧ ∀ j : nat, j ≠ i → <[i := r]> l !! j = l !! j.
Proof.
  intros Hw Hs Hrows Hf. exists (item_of wallet channel).
  destruct (find_cid_Some _ _ _ Hf) as (old & Hi & _ & _).
  split; [by eapply channel_to_model_engine|]. split.
  - rewrite (on_channel_updated_hit _ _ _ _ _ Hs Hrows Hf).
    eapply do_update_engine; [done|done|done|].
    rewrite Forall_forall in Hrows. apply Hrows.
    by eapply list_elem_of_lookup_2.
  - split; [by rewrite length_insert|]. split.
    + apply list_lookup_insert_eq. by eapply lookup_lt_Some.
    + intros j Hj. by apply list_lookup_insert_ne.
Qed.

Lemma update_changes_one_row_witness :
  ∃ r, channel_to_model sample_wallet chan_backup = Ok r
    ∧ on_channel_updated sample_wallet chan_backup sample_model
      = (Ok (), mkModel (Some (<[1%nat := r]> sample_rows))
                  (signals sample_model
                   ++ [DataChanged 1 1 _ROLE_KEYS; NumOpenChannelsChanged])
                  (logged sample_model
                   ++ [LogDebug ("updating our channel "
                                 +:+ short_id_for_GUI chan_backup)]))
    ∧ length (<[1%nat := r]> sample_rows) = length sample_rows
    ∧ <[1%nat := r]> sample_rows !! 1%nat = Some r
    ∧ ∀ j : nat, j ≠ 1%nat → <[1%nat := r]> sample_rows !! j = sample_rows !! j.
Proof.
  apply (update_changes_one_row sample_wallet sample_lnworker chan_backup
           sample_model sample_rows 1).
  - reflexivity.
  - apply sample_channels.
  - apply sample_rows_adapter.
  - vm_compute. reflexivity.
Defined.

(** C6, as the code has it: [new_channel] resolves the cid against the dict
    [channels] of the engine, which is not the dict [get_channel_objects()]
    that a rebuild lists.  For a cid that [channels] holds it puts the row of
    that channel at position 0, in front of the rows that were there, each
    of which moves up by one, and emits the row insertion and countChanged;
    for a cid that [channels] does not hold, the cid of a listed backup
    included, it leaves the list as it was and emits nothing. *)
Theorem insert_prepends_row (wallet : Wallet) (lnw : LNWorker) (cid : string)
    (s : QEChannelListModel) (l : list (gmap string value)) :
  lnworker wallet = Some lnw → channels s = Some l →
  match find_channel cid (values (lnworker_channels lnw)) with
  | Some c =>
      ∃ r, channel_to_model wallet c = Ok r
        ∧ cid_of c = cid
        ∧ new_channel wallet cid s
          = (Ok (), mkModel (Some (r :: l))
                      (signals s ++ [BeginInsertRows 0 0; EndInsertRows;
                                     CountChanged])
                      (logged s ++ [LogDebug ("new channel with cid " +:+ cid);
                                    LogDebugItem r]))
        ∧ (r :: l) !! 0%nat = Some r
        ∧ (∀ j : nat, (r :: l) !! S j = l !! j)
        ∧ length (r :: l) = S (length l)
  | None =>
      Forall (λ c, cid_of c ≠ cid) (values (lnworker_channels lnw))
      ∧ new_channel wallet cid s
        = (Ok (), mkModel (Some l) (signals s)
                    (logged s ++ [LogDebug ("new channel with cid " +:+ cid)]))
  end.
Proof.
  intros Hw Hs. rewrite (new_channel_engine _ _ _ _ _ Hw Hs).
  destruct (find_channel _ _) as [c|] eqn:Hf.
  - exists (item_of wallet c). split; [by eapply channel_to_model_engine|].
    split; [by apply find_channel_Some in Hf as [_ ?]|].
    split; [done|]. by repeat split.
  - split; [|done]. by apply find_channel_None.
Qed.

Lemma insert_prepends_row_witness :
  (∃ r, channel_to_model tied_wallet chan_open2 = Ok r
     ∧ new_channel tied_wallet "03" sample_model
       = (Ok (), mkModel (Some (r :: sample_rows))
                   (signals sample_model
                    ++ [BeginInsertRows 0 0; EndInsertRows; CountChanged])
                   (logged sample_model
                    ++ [LogDebug ("new channel with cid " +:+ "03");
                        LogDebugItem r]))
     ∧ (r :: sample_rows) !! 0%nat = Some r
     ∧ (∀ j : nat, (r :: sample_rows) !! S j = sample_rows !! j)
     ∧ length (r :: sample_rows) = S (length sample_rows))
  ∧ new_channel tied_wallet "77" sample_model
    = (Ok (), mkModel (Some sample_rows) (signals sample_model)
                (logged sample_model
                 ++ [LogDebug ("new channel with cid " +:+ "77")])).
Proof.
  assert (E1 : find_channel "03" (values (lnworker_channels tied_lnworker))
               = Some chan_open2) by (vm_compute; reflexivity).
  assert (E2 : find_channel "77" (values (lnworker_channels tied_lnworker))
               = None) by (vm_compute; reflexivity).
  pose proof (insert_prepends_row tied_wallet tied_lnworker "03"
                sample_model sample_rows eq_refl sample_channels) as H1.
  pose proof (insert_prepends_row tied_wallet tied_lnworker "77"
                sample_model sample_rows eq_refl sample_channels) as H2.
  rewrite E1 in H1. rewrite E2 in H2.
  split; [|exact (proj2 H2)].
  destruct H1 as (r & Hr & _ & Hrun & Hpos).
  exists r. split; [exact Hr|]. split; [exact Hrun|exact Hpos].
Defined.

(** C6 as stated fails: the sample engine lists the backup of cid 02 among
    its channel objects, and a rebuild shows its row, but its dict
    [channels] does not hold it; inserting that cid adds no row and emits
    nothing. *)
Lemma insert_of_listed_backup_adds_no_row :
  find_channel "02" (values (get_channel_objects sample_lnworker))
  = Some chan_backup
  ∧ find_cid "02" sample_rows = Some 1%nat
  ∧ new_channel sample_wallet "02" (mkModel (Some []) [] [])
    = (Ok (), mkModel (Some []) [] [LogDebug ("new channel with cid " +:+ "02")])
  ∧ new_channel sample_wallet "02" sample_model
    = (Ok (), mkModel (Some sample_rows) (signals sample_model)
                (logged sample_model
                 ++ [LogDebug ("new channel with cid " +:+ "02")])).
Proof.
  assert (E : find_channel "02" (values (lnworker_channels sample_lnworker))
              = None) by (vm_compute; reflexivity).
  split; [vm_compute; reflexivity|]. split; [vm_compute; reflexivity|]. split.
  - rewrite (new_channel_engine sample_wallet sample_lnworker "02"
               (mkModel (Some []) [] []) [] eq_refl eq_refl).
    by rewrite E.
  - rewrite (new_channel_engine sample_wallet sample_lnworker "02"
               sample_model sample_rows eq_refl sample_channels).
    by rewrite E.
Qed.

(** C7: [remove_channel] for a cid that a row has deletes the first such
    row, keeps the others in their order, and emits the row removal and
    countChanged; for a cid that no row has it leaves the list as it was and
    emits nothing. *)
Theorem remove_deletes_row (cid : string) (s : QEChannelListModel)
    (l : list (gmap string value)) :
  channels s = Some l → Forall adapter_row l →
  match find_cid cid l with
  | Some i =>
      (∃ r, l !! i = Some r ∧ r !! "cid" = Some (VStr cid))
      ∧ remove_channel cid s
        = (Ok (), mkModel (Some (delete i l))
                    (signals s ++ [BeginRemoveRows (Z.of_nat i) (Z.of_nat i);
                                   EndRemoveRows; CountChanged])
                    (logged s ++ [LogDebug ("remove channel with cid " +:+ cid);
                                  LogDebug cid]))
      ∧ delete i l = take i l ++ drop (S i) l
  | None =>
      Forall (λ r, r !! "cid" ≠ Some (VStr cid)) l
      ∧ remove_channel cid s
        = (Ok (), mkModel (Some l) (signals s)
                    (logged s ++ [LogDebug ("remove channel with cid " +:+ cid)]))
  end.
Proof.
  intros Hs Hrows. destruct (find_cid cid l) as [i|] eqn:Hf.
  - split.
    { destruct (find_cid_Some _ _ _ Hf) as (r & Hi & Hc & _). by exists r. }
    split; [by apply remove_channel_hit|]. apply delete_take_drop.
  - split; [by apply find_cid_None|]. by apply remove_channel_absent.
Qed.

Lemma remove_deletes_row_witness :
  remove_channel "02" sample_model
  = (Ok (), mkModel (Some (delete 1%nat sample_rows))
              (signals sample_model
               ++ [BeginRemoveRows 1 1; EndRemoveRows; CountChanged])
              (logged sample_model
               ++ [LogDebug "remove channel with cid 02"; LogDebug "02"]))
  ∧ remove_channel "77" sample_model
    = (Ok (), mkModel (Some sample_rows) (signals sample_model)
                (logged sample_model ++ [LogDebug "remove channel with cid 77"])).
Proof.
  assert (E2 : find_cid "02" sample_rows = Some 1%nat)
    by (vm_compute; reflexivity).
  assert (E7 : find_cid "77" sample_rows = None)
    by (vm_compute; reflexivity).
  pose proof (remove_deletes_row "02" sample_model sample_rows
                sample_channels sample_rows_adapter) as H2.
  pose proof (remove_deletes_row "77" sample_model sample_rows
                sample_channels sample_rows_adapter) as H7.
  rewrite E2 in H2. rewrite E7 in H7.
  split; [exact (proj1 (proj2 H2))|exact (proj2 H7)].
Defined.

(** In every state the adapter can reach in which the row list exists,
    [numOpenChannels] returns the number of rows whose state code is the
    open state constant, and changes nothing. *)
Theorem numOpenChannels_counts_open (ChannelState_OPEN : Z)
    (s : QEChannelListModel) (l : list (gmap string value)) :
  reachable s → channels s = Some l →
  numOpenChannels ChannelState_OPEN s = (Ok (count_open ChannelState_OPEN l), s).
Proof.
  intros Hreach Hs. apply numOpenChannels_rows; [done|].
  by apply (reachable_adapter_rows s Hreach).
Qed.

Lemma numOpenChannels_counts_open_witness :
  numOpenChannels 3 sample_model = (Ok 1, sample_model).
Proof.
  apply (numOpenChannels_counts_open 3 sample_model sample_rows
           sample_reachable sample_channels).
Defined.

(** C8: the open-channel count is the number of rows whose state code is
    the open state constant in every reachable state that has a row list;
    the state the constructor leaves on a wallet without Lightning engine is
    reachable and has none, and there [numOpenChannels] raises
    AttributeError. *)
Theorem numOpenChannels_raises_without_row_list (ChannelState_OPEN : Z) :
  reachable (__init__ (mkWallet None)).2
  ∧ (__init__ (mkWallet None)).1 = Ok ()
  ∧ channels (__init__ (mkWallet None)).2 = None
  ∧ numOpenChannels ChannelState_OPEN (__init__ (mkWallet None)).2
    = (Raise (AttributeError "channels"), (__init__ (mkWallet None)).2)
  ∧ ∀ s l, reachable s → channels s = Some l →
           numOpenChannels ChannelState_OPEN s
           = (Ok (count_open ChannelState_OPEN l), s).
Proof.
  split; [apply reachable_init|]. split; [reflexivity|].
  split; [reflexivity|]. split; [reflexivity|].
  intros s l Hreach Hs. apply numOpenChannels_rows; [done|].
  by apply (reachable_adapter_rows s Hreach).
Qed.

Lemma insert_listed_cid_duplicates (w : Wallet) (lnw : LNWorker)
    (cid : string) (c : Channel) (s : QEChannelListModel)
    (l : list (gmap string value)) :
  lnworker w = Some lnw →
  find_channel cid (values (lnworker_channels lnw)) = Some c →
  channels s = Some l → is_Some (find_cid cid l) →
  ∃ r, channel_to_model w c = Ok r
    ∧ channels (new_channel w cid s).2 = Some (r :: l)
    ∧ ¬ unique_cids (r :: l).
Proof.
  intros Hw Hf Hs [i Hi]. exists (item_of w c).
  split; [by eapply channel_to_model_engine|]. split.
  - rewrite (new_channel_engine w lnw cid s l Hw Hs). by rewrite Hf.
  - unfold unique_cids. rewrite fmap_cons. intros Hnd.
    apply NoDup_cons in Hnd as [Hnotin _]. apply Hnotin.
    rewrite (item_of_cid w lnw c Hw).
    apply find_channel_Some in Hf as [_ ->].
    destruct (find_cid_Some _ _ _ Hi) as (old & Hold & Hc & _).
    apply list_elem_of_fmap. exists old. split; [by unfold row_cid|].
    by eapply list_elem_of_lookup_2.
Qed.

(** C3, as the code has it: starting from a model built on a wallet whose
    dicts are keyed by channel id, the cids of the rows stay unique along
    every run of rebuilds (from such wallets), updates, removals, and
    insertions of a cid that no row of the list has at that point; after
    such a run, an insertion of a cid that has a row in the list and that
    the dict [channels] of the engine holds puts a second row of that cid
    in front, and the cids are unique no more. *)
Theorem unique_cids_kept (wallet : Wallet) (os : list slot) :
  wallet_keyed wallet →
  cids_kept_apart (__init__ wallet).2 os →
  unique_rows (run_slots os (__init__ wallet).2)
  ∧ ∀ w lnw cid c l,
      lnworker w = Some lnw →
      find_channel cid (values (lnworker_channels lnw)) = Some c →
      channels (run_slots os (__init__ wallet).2) = Some l →
      is_Some (find_cid cid l) →
      ∃ r, channel_to_model w c = Ok r
        ∧ channels (new_channel w cid (run_slots os (__init__ wallet).2)).2
          = Some (r :: l)
        ∧ ¬ unique_cids (r :: l).
Proof.
  intros Hk Hruns. split.
  - pose proof (unique_rows_init wallet Hk) as Hinit.
    revert Hinit Hruns. generalize (__init__ wallet).2 as s.
    induction os as [|o os IH]; intros s Hs Hruns; simpl in *; [done|].
    destruct Hruns as [Ho Hruns]. apply IH; [|done].
    by apply unique_rows_slot.
  - intros w lnw cid c l Hw Hf Hl Hin.
    by apply (insert_listed_cid_duplicates w lnw cid c _ l).
Qed.

Lemma unique_cids_kept_witness :
  unique_rows
    (run_slots [ApplyUpdate sample_wallet chan_open; Remove "01";
                Insert sample_wallet "01"; Rebuild sample_wallet]
       (__init__ sample_wallet).2)
  ∧ ∀ w lnw cid c l,
      lnworker w = Some lnw →
      find_channel cid (values (lnworker_channels lnw)) = Some c →
      channels (run_slots [ApplyUpdate sample_wallet chan_open; Remove "01";
                           Insert sample_wallet "01"; Rebuild sample_wallet]
                  (__init__ sample_wallet).2) = Some l →
      is_Some (find_cid cid l) →
      ∃ r, channel_to_model w c = Ok r
        ∧ channels (new_channel w cid
                      (run_slots [ApplyUpdate sample_wallet chan_open;
                                  Remove "01"; Insert sample_wallet "01";
                                  Rebuild sample_wallet]
                         (__init__ sample_wallet).2)).2
          = Some (r :: l)
        ∧ ¬ unique_cids (r :: l).
Proof.
  apply (unique_cids_kept sample_wallet
           [ApplyUpdate sample_wallet chan_open; Remove "01";
            Insert sample_wallet "01"; Rebuild sample_wallet]).
  - apply sample_wallet_keyed.
  - cbn [cids_kept_apart keeps_cids_apart].
    split; [exact I|]. split; [exact I|]. split.
    + vm_compute. reflexivity.
    + split; [apply sample_wallet_keyed|exact I].
Defined.

(** C3 as stated fails: on the sample wallet, whose dicts are keyed by
    channel id, inserting the cid of a row that is already in the list gives
    a list with that cid twice. *)
Lemma insert_existing_cid_duplicates :
  wallet_keyed sample_wallet
  ∧ ∃ l, channels (run_slots [Insert sample_wallet "01"]
                     (__init__ sample_wallet).2) = Some l
      ∧ row_cid <$> l = [Some (VStr "01"); Some (VStr "01"); Some (VStr "02")]
      ∧ ¬ unique_cids l.
Proof.
  split; [apply sample_wallet_keyed|].
  exists (item_of sample_wallet chan_open :: sample_rows).
  assert (Hcids : row_cid <$> item_of sample_wallet chan_open :: sample_rows
                  = [Some (VStr "01"); Some (VStr "01"); Some (VStr "02")])
    by (vm_compute; reflexivity).
  split.
  - cbn [run_slots run_slot].
    rewrite (new_channel_engine sample_wallet sample_lnworker "01"
               (__init__ sample_wallet).2 sample_rows eq_refl sample_channels).
    assert (find_channel "01" (values (lnworker_channels sample_lnworker))
            = Some chan_open) as -> by (vm_compute; reflexivity).
    reflexivity.
  - split; [exact Hcids|].
    unfold unique_cids. rewrite Hcids. intros Hnd.
    apply NoDup_cons in Hnd as [Hnotin _]. apply Hnotin. by left.
Qed.

(** Once the row list exists and holds rows of the adapter, the row count,
    the count property, the open-channel count, a rebuild and a removal
    return without raising for every argument, and so
    does an update when the wallet has an engine or no row has the id of the
    channel; a rebuild needs no row list.  An update or a removal whose id
    matches no row changes neither the list nor the notifications.
    [filterModel] raises AssertionError exactly for a role name that is not
    in [_ROLE_NAMES]; the two backup filters are built without raising. *)
Theorem slots_return_on_adapter_rows (s : QEChannelListModel)
    (l : list (gmap string value)) :
  channels s = Some l → Forall adapter_row l →
  rowCount s = (Ok (Z.of_nat (length l)), s)
  ∧ count s = (Ok (Z.of_nat (length l)), s)
  ∧ (∀ open, ¬ raises (numOpenChannels open s).1)
  ∧ (∀ wallet s', ¬ raises (init_model wallet s').1)
  ∧ (∀ cid, ¬ raises (remove_channel cid s).1)
  ∧ (∀ cid, find_cid cid l = None →
            (remove_channel cid s).1 = Ok ()
            ∧ channels (remove_channel cid s).2 = Some l
            ∧ signals (remove_channel cid s).2 = signals s)
  ∧ (∀ wallet channel,
       is_Some (lnworker wallet) ∨ find_cid (cid_of channel) l = None →
       ¬ raises (on_channel_updated wallet channel s).1)
  ∧ (∀ wallet channel, find_cid (cid_of channel) l = None →
                       on_channel_updated wallet channel s = (Ok (), s))
  ∧ (∀ role m, raises (filterModel role m) ↔ role ∉ _ROLE_NAMES)
  ∧ (∀ role m, role ∉ _ROLE_NAMES → filterModel role m = Raise AssertionError)
  ∧ filterModelBackups = Ok (mkFilter (Qt_UserRole + 17) (VBool true))
  ∧ filterModelNoBackups = Ok (mkFilter (Qt_UserRole + 17) (VBool false)).
Proof.
  intros Hs Hrows.
  split. { unfold rowCount. mrun. by rewrite Hs. }
  split. { unfold count. mrun. by rewrite Hs. }
  split. { intros open. rewrite (numOpenChannels_rows open s l Hs Hrows). simpl. tauto. }
  split.
  { intros w s'. destruct (lnworker w) as [lnw|] eqn:Hw.
    - destruct (init_model_engine w lnw s' Hw) as (l' & _ & _ & ->). simpl. tauto.
    - rewrite (init_model_no_engine w s' Hw). simpl. tauto. }
  split.
  { intros cid. destruct (find_cid cid l) as [i|] eqn:Hf.
    - rewrite (remove_channel_hit cid s l i Hs Hrows Hf). simpl. tauto.
    - rewrite (remove_channel_absent cid s l Hs Hrows Hf). simpl. tauto. }
  split.
  { intros cid Hf. by rewrite (remove_channel_absent cid s l Hs Hrows Hf). }
  split.
  { intros w c [[lnw Hw]|Hf].
    - destruct (find_cid (cid_of c) l) as [i|] eqn:Hf.
      + rewrite (on_channel_updated_hit _ _ _ _ _ Hs Hrows Hf).
        destruct (find_cid_Some _ _ _ Hf) as (old & Hi & _ & _).
        erewrite do_update_engine; [simpl; tauto|done|done|done|].
        rewrite Forall_forall in Hrows. apply Hrows.
        by eapply list_elem_of_lookup_2.
      + rewrite (on_channel_updated_absent _ _ _ _ Hs Hrows Hf). simpl. tauto.
    - rewrite (on_channel_updated_absent _ _ _ _ Hs Hrows Hf). simpl. tauto. }
  split.
  { intros w c Hf. by apply (on_channel_updated_absent _ _ _ _ Hs Hrows Hf). }
  split. { intros role m. apply filterModel_raises. }
  split.
  { intros role m Hrole. apply role_rmap_None in Hrole.
    unfold filterModel. by rewrite Hrole. }
  split; reflexivity.
Qed.

Lemma slots_return_on_adapter_rows_witness :
  rowCount sample_model = (Ok 2, sample_model)
  ∧ ¬ raises (remove_channel "01" sample_model).1
  ∧ on_channel_updated plain_wallet (mkChannel [x07] [] "" "" 0 false false 0
                                       (λ _, 0) (λ _, 0)) sample_model
    = (Ok (), sample_model)
  ∧ filterModel "balance" (VInt 0) = Raise AssertionError.
Proof.
  destruct (slots_return_on_adapter_rows sample_model sample_rows
              sample_channels sample_rows_adapter)
    as (Hcount & _ & _ & _ & Hrm & _ & _ & Hupd & _ & Hflt & _).
  split; [exact Hcount|]. split; [apply Hrm|].
  split; [apply Hupd; reflexivity|].
  apply Hflt. concrete_not_in.
Defined.

(** [filterModel] asserts that the role name is one of the role names and
    raises AssertionError for any other name. *)
Lemma filterModel_unknown_role_raises :
  ("balance" ∉ _ROLE_NAMES)
  ∧ filterModel "balance" (VBool true) = Raise AssertionError
  ∧ raises (filterModel "balance" (VBool true)).
Proof. split; [concrete_not_in|]. split; [reflexivity|exact I]. Qed.

(** ** The role tables and [data] *)

Section roles.
Implicit Types (r : gmap string value) (l : list (gmap string value)).
Implicit Types (s : QEChannelListModel).

Lemma str_encode_inj (a b : string) : str_encode a = str_encode b → a = b.
Proof.
  unfold str_encode. intros H.
  apply (f_equal string_of_list_byte) in H.
  by rewrite !string_of_list_byte_of_string in H.
Qed.

(** The i-th role: its name, its key, and how the tables and the index
    arithmetic of [data] relate them. *)
Lemma role_tables_at (i : nat) (name : string) :
  _ROLE_NAMES !! i = Some name →
  _ROLE_KEYS !! i = Some (Qt_UserRole + Z.of_nat i)
  ∧ _ROLE_RMAP !! name = Some (Qt_UserRole + Z.of_nat i)
  ∧ _ROLE_MAP !! (Qt_UserRole + Z.of_nat i) = Some (str_encode name)
  ∧ py_index _ROLE_NAMES (Qt_UserRole + Z.of_nat i - Qt_UserRole) = Ok name.
Proof.
  intros Hi. unfold _ROLE_NAMES in Hi.
  do 21 (destruct i as [|i]; simpl in Hi;
         [injection Hi as <-; repeat split; vm_compute; reflexivity|]).
  discriminate Hi.
Qed.

Lemma role_name_index (name : string) :
  name ∈ _ROLE_NAMES → ∃ i : nat, _ROLE_NAMES !! i = Some name.
Proof. intros H. by apply list_elem_of_lookup in H. Qed.

Lemma role_key_index (key : Z) :
  key ∈ _ROLE_KEYS →
  ∃ (i : nat) name, key = Qt_UserRole + Z.of_nat i
                    ∧ _ROLE_NAMES !! i = Some name.
Proof.
  unfold _ROLE_KEYS. intros H.
  apply list_elem_of_fmap in H as (i & -> & Hi).
  apply elem_of_seq in Hi as [_ Hi].
  destruct (lookup_lt_is_Some_2 _ROLE_NAMES i) as [name Hname]; [lia|].
  by exists i, name.
Qed.

Lemma data_at s l (i j : nat) r name :
  channels s = Some l → l !! i = Some r → _ROLE_NAMES !! j = Some name →
  data (Z.of_nat i) (Qt_UserRole + Z.of_nat j) s = (py_getitem r name, s).
Proof.
  intros Hs Hi Hj. unfold data. mrun. rewrite Hs.
  rewrite (py_index_nat l i r Hi). mrun.
  destruct (role_tables_at j name Hj) as (_ & _ & _ & ->). mrun.
  destruct (py_getitem r name) as [[]|]; reflexivity.
Qed.

Lemma py_index_out {A} (xs : list A) (i : Z) :
  i < - Z.of_nat (length xs) ∨ Z.of_nat (length xs) ≤ i →
  py_index xs i = Raise IndexError.
Proof.
  intros H. unfold py_index, py_norm_index.
  destruct (Z.ltb_spec i 0);
    destruct (Z.ltb_spec (i + Z.of_nat (length xs)) 0);
    destruct (Z.leb_spec (Z.of_nat (length xs)) (i + Z.of_nat (length xs)));
    destruct (Z.ltb_spec i 0);
    destruct (Z.leb_spec (Z.of_nat (length xs)) i);
    simpl; try done; lia.
Qed.

Lemma py_index_neg {A} (xs : list A) (i : Z) :
  - Z.of_nat (length xs) ≤ i < 0 →
  py_index xs i = py_index xs (i + Z.of_nat (length xs)).
Proof.
  intros H. unfold py_index, py_norm_index.
  rewrite (proj2 (Z.ltb_lt i 0)) by lia.
  rewrite (proj2 (Z.ltb_ge (i + Z.of_nat (length xs)) 0)) by lia.
  rewrite (proj2 (Z.leb_gt (Z.of_nat (length xs))
                    (i + Z.of_nat (length xs)))) by lia.
  by rewrite (proj2 (Z.ltb_ge (i + Z.of_nat (length xs)) 0)) by lia.
Qed.

Lemma py_index_in {A} (xs : list A) (i : Z) :
  0 ≤ i < Z.of_nat (length xs) →
  ∃ x, xs !! Z.to_nat i = Some x ∧ py_index xs i = Ok x.
Proof.
  intros H.
  destruct (lookup_lt_is_Some_2 xs (Z.to_nat i)) as [x Hx]; [lia|].
  exists x. split; [done|].
  rewrite <- (Z2Nat.id i) by lia. by apply py_index_nat.
Qed.

Lemma adapter_row_item_key r (name : string) :
  adapter_row r → name ∈ ITEM_KEYS → is_Some (r !! name).
Proof.
  intros Hr Hin. apply elem_of_dom. rewrite (adapter_row_dom r Hr).
  by apply elem_of_list_to_set.
Qed.

Lemma role_rmap_Some (name : string) (key : Z) :
  _ROLE_RMAP !! name = Some key →
  ∃ i : nat, _ROLE_NAMES !! i = Some name ∧ key = Qt_UserRole + Z.of_nat i.
Proof.
  unfold _ROLE_RMAP. intros H.
  apply elem_of_list_to_map_2 in H. rewrite elem_of_reverse in H.
  apply elem_of_lookup_zip_with in H as (i & x & y & [= <- <-] & Hx & Hy).
  exists i. split; [done|].
  destruct (role_tables_at i name Hx) as (Hk & _). congruence.
Qed.

End roles.

(** ** Further properties: roles and the accessor *)

(** X1: the two role tables are inverse to each other: a role name has key
    [k] in [_ROLE_RMAP] exactly when [roleNames()] gives the encoded name
    for [k]; the keys of [roleNames()] are the 21 integers from
    [Qt.UserRole] on, and the names of [_ROLE_RMAP] are the role names. *)
Theorem role_tables_inverse (name : string) (key : Z) :
  (_ROLE_RMAP !! name = Some key ↔ roleNames !! key = Some (str_encode name))
  ∧ (is_Some (roleNames !! key) ↔ Qt_UserRole ≤ key < Qt_UserRole + 21)
  ∧ (is_Some (_ROLE_RMAP !! name) ↔ name ∈ _ROLE_NAMES).
Proof.
  unfold roleNames. split; [split|split; [split|]].
  - intros H. apply role_rmap_Some in H as (i & Hi & ->).
    by destruct (role_tables_at i name Hi) as (_ & _ & ? & _).
  - unfold _ROLE_MAP. intros H.
    apply elem_of_list_to_map_2 in H. rewrite elem_of_reverse in H.
    apply elem_of_lookup_zip_with in H as (i & x & y & [= <- <-] & Hx & Hy).
    apply list_lookup_fmap_Some in Hy as (name' & Henc & Hname).
    apply str_encode_inj in Henc as ->.
    destruct (role_tables_at i name' Hname) as (Hk & Hr & _). congruence.
  - intros [b H]. unfold _ROLE_MAP in H.
    apply elem_of_list_to_map_2 in H. rewrite elem_of_reverse in H.
    apply elem_of_lookup_zip_with in H as (i & x & y & [= <- <-] & Hx & Hy).
    apply lookup_lt_Some in Hy. rewrite length_fmap in Hy.
    apply list_elem_of_lookup_2, role_key_index in Hx as (j & n & -> & Hj).
    apply lookup_lt_Some in Hj. change (length _ROLE_NAMES) with 21%nat in Hj.
    lia.
  - intros H.
    destruct (lookup_lt_is_Some_2 _ROLE_NAMES (Z.to_nat (key - Qt_UserRole)))
      as [n Hn]; [change (length _ROLE_NAMES) with 21%nat; lia|].
    destruct (role_tables_at _ n Hn) as (_ & _ & Hm & _).
    rewrite Z2Nat.id in Hm by lia. exists (str_encode n).
    rewrite <- Hm. f_equal. lia.
  - split.
    + intros [k Hk]. destruct (decide (name ∈ _ROLE_NAMES)) as [|Hn]; [done|].
      apply role_rmap_None in Hn. congruence.
    + intros Hin. destruct (_ROLE_RMAP !! name) eqn:E; [by eexists|].
      by apply role_rmap_None in E.
Qed.

(** X2: for a row of the list and a role name with its key, [data] returns
    what the row holds under that name, or raises KeyError with the name
    when the row has no such key, and leaves the model as it is.  On a row
    of the adapter it returns a value for each of the fourteen item keys.
    The key that [filterModel] keeps for a role name is the key under which
    [data] reads that name. *)
Theorem data_reads_row_key (s : QEChannelListModel)
    (l : list (gmap string value)) (i : nat) (r : gmap string value)
    (name : string) (key : Z) :
  channels s = Some l → l !! i = Some r → _ROLE_RMAP !! name = Some key →
  data (Z.of_nat i) key s = (py_getitem r name, s)
  ∧ (adapter_row r → name ∈ ITEM_KEYS →
     ∃ v, r !! name = Some v ∧ data (Z.of_nat i) key s = (Ok v, s))
  ∧ (∀ m, filterModel name m = Ok (mkFilter key m)).
Proof.
  intros Hs Hi Hkey.
  destruct (role_rmap_Some name key Hkey) as (j & Hj & ->).
  pose proof (data_at s l i j r name Hs Hi Hj) as Hdata.
  split; [done|]. split.
  - intros Hr Hin. destruct (adapter_row_item_key r name Hr Hin) as [v Hv].
    exists v. split; [done|]. rewrite Hdata. unfold py_getitem. by rewrite Hv.
  - intros m. unfold filterModel. by rewrite Hkey.
Qed.

Lemma data_reads_row_key_witness :
  data 1 (Qt_UserRole + 17) two_rows = (py_getitem row_backup "is_backup", two_rows)
  ∧ (adapter_row row_backup → "is_backup" ∈ ITEM_KEYS →
     ∃ v, row_backup !! "is_backup" = Some v
          ∧ data 1 (Qt_UserRole + 17) two_rows = (Ok v, two_rows))
  ∧ (∀ m, filterModel "is_backup" m = Ok (mkFilter (Qt_UserRole + 17) m)).
Proof.
  apply (data_reads_row_key two_rows [row_open; row_backup] 1 row_backup
           "is_backup" (Qt_UserRole + 17)).
  - reflexivity.
  - reflexivity.
  - vm_compute. reflexivity.
Defined.

(** X3: the bounds of [data].  With n rows, a row index below -n or from n
    on raises IndexError; a row index from -n to -1 counts from the end, so
    the row -1 of an invalid index reads the last row; for a row in range a
    role below [Qt.UserRole - 21] or from [Qt.UserRole + 21] on raises
    IndexError, and a role in the 21 below [Qt.UserRole] reads the same name
    as the role 21 above it.  The model is left as it is. *)
Theorem data_index_bounds (s : QEChannelListModel)
    (l : list (gmap string value)) (row role : Z) :
  channels s = Some l →
  (row < - Z.of_nat (length l) ∨ Z.of_nat (length l) ≤ row →
   data row role s = (Raise IndexError, s))
  ∧ (- Z.of_nat (length l) ≤ row < 0 →
     data row role s = data (row + Z.of_nat (length l)) role s)
  ∧ (0 ≤ row < Z.of_nat (length l) →
     role < Qt_UserRole - 21 ∨ Qt_UserRole + 21 ≤ role →
     data row role s = (Raise IndexError, s))
  ∧ (0 ≤ row < Z.of_nat (length l) →
     Qt_UserRole - 21 ≤ role < Qt_UserRole →
     data row role s = data row (role + 21) s).
Proof.
  intros Hs. unfold data. mrun. rewrite Hs.
  split; [|split; [|split]].
  - intros H. by rewrite (py_index_out l row H).
  - intros H. by rewrite (py_index_neg l row H).
  - intros Hrow Hrole. destruct (py_index_in l row Hrow) as (r & _ & ->). mrun.
    rewrite (py_index_out _ROLE_NAMES (role - Qt_UserRole)); [done|].
    change (length _ROLE_NAMES) with 21%nat. lia.
  - intros Hrow Hrole. destruct (py_index_in l row Hrow) as (r & _ & ->). mrun.
    rewrite (py_index_neg _ROLE_NAMES (role - Qt_UserRole))
      by (change (length _ROLE_NAMES) with 21%nat; lia).
    change (length _ROLE_NAMES) with 21%nat.
    by replace (role - Qt_UserRole + Z.of_nat 21) with (role + 21 - Qt_UserRole)
      by lia.
Qed.

Lemma data_index_bounds_witness :
  data 2 Qt_UserRole two_rows = (Raise IndexError, two_rows)
  ∧ data (-1) Qt_UserRole two_rows = data 1 Qt_UserRole two_rows
  ∧ data 0 0 two_rows = (Raise IndexError, two_rows)
  ∧ data 0 (Qt_UserRole - 21) two_rows = data 0 Qt_UserRole two_rows.
Proof.
  pose proof (data_index_bounds two_rows [row_open; row_backup]) as H.
  split; [|split; [|split]].
  - destruct (H 2 Qt_UserRole eq_refl) as (H1 & _).
    apply H1. cbn [length]. lia.
  - destruct (H (-1) Qt_UserRole eq_refl) as (_ & H2 & _).
    apply H2. cbn [length]. lia.
  - destruct (H 0 0 eq_refl) as (_ & _ & H3 & _).
    apply H3; [cbn [length]; lia|]. unfold Qt_UserRole. lia.
  - destruct (H 0 (Qt_UserRole - 21) eq_refl) as (_ & _ & _ & H4).
    replace Qt_UserRole with (Qt_UserRole - 21 + 21) at 2 by lia.
    apply H4; [cbn [length]; lia|]. unfold Qt_UserRole. lia.
Defined.

(** ** Further properties: the slots without engine or row list *)

(** X4: a model constructed on a wallet without Lightning engine has no
    [channels] attribute: the constructor returns, having logged the
    warning, and from then on the row count, the count property, the
    open-channel count, [data], an update and a removal all raise
    AttributeError, and so does an insert, whatever wallet it is given. *)
Theorem init_without_engine_unset (wallet : Wallet) :
  lnworker wallet = None →
  __init__ wallet
  = (Ok (), mkModel None [] [LogDebug "init_model";
                             LogWarning "lnworker should be defined"])
  ∧ (rowCount (__init__ wallet).2).1 = Raise (AttributeError "channels")
  ∧ (count (__init__ wallet).2).1 = Raise (AttributeError "channels")
  ∧ (∀ open, (numOpenChannels open (__init__ wallet).2).1
             = Raise (AttributeError "channels"))
  ∧ (∀ row role, (data row role (__init__ wallet).2).1
                 = Raise (AttributeError "channels"))
  ∧ (∀ w c, (on_channel_updated w c (__init__ wallet).2).1
            = Raise (AttributeError "channels"))
  ∧ (∀ cid, (remove_channel cid (__init__ wallet).2).1
            = Raise (AttributeError "channels"))
  ∧ (∀ w cid o, channels (run_slot o (new_channel w cid (__init__ wallet).2).2).2
                = None
                ∨ ∃ w', o = Rebuild w' ∧ is_Some (lnworker w')).
Proof.
  intros Hw. unfold __init__.
  set (s0 := mkModel None [] [LogDebug "init_model";
                              LogWarning "lnworker should be defined"]).
  assert (Hinit : init_model wallet new_model = (Ok (), s0))
    by (by rewrite (init_model_no_engine wallet new_model Hw)).
  rewrite Hinit. cbn [fst snd].
  split; [reflexivity|]. split; [reflexivity|]. split; [reflexivity|].
  split; [intros; reflexivity|]. split; [intros; reflexivity|].
  split; [|split].
  - intros w c. by rewrite update_unset.
  - intros cid. by destruct (remove_unset cid s0 eq_refl).
  - intros w cid o.
    pose proof (insert_unset w cid s0 eq_refl) as Hs1.
    destruct o as [w'|w' c|w' cid'|cid']; cbn [run_slot].
    + pose proof (rebuild_channels w' (new_channel w cid s0).2) as H.
      destruct (lnworker w') as [lnw|] eqn:Hw'.
      * right. exists w'. split; [done|]. rewrite Hw'. by eexists.
      * left. by rewrite H.
    + left. by rewrite (update_unset w' c _ Hs1).
    + left. by apply insert_unset.
    + left. by destruct (remove_unset cid' _ Hs1).
Qed.

Lemma init_without_engine_unset_witness :
  __init__ plain_wallet
  = (Ok (), mkModel None [] [LogDebug "init_model";
                             LogWarning "lnworker should be defined"])
  ∧ (rowCount (__init__ plain_wallet).2).1 = Raise (AttributeError "channels").
Proof.
  destruct (init_without_engine_unset plain_wallet eq_refl) as (H1 & H2 & _).
  split; [exact H1|exact H2].
Defined.

(** X5: [new_channel] has no guard for a wallet without Lightning engine:
    it raises AttributeError after the debug line, whatever the cid and the
    state, and leaves the row list and the notifications as they were. *)
Theorem insert_without_engine_raises (wallet : Wallet) (cid : string)
    (s : QEChannelListModel) :
  lnworker wallet = None →
  new_channel wallet cid s
  = (Raise (AttributeError "channels"),
     mkModel (channels s) (signals s)
       (logged s ++ [LogDebug ("new channel with cid " +:+ cid)])).
Proof. apply new_channel_no_engine. Qed.

Lemma insert_without_engine_raises_witness :
  new_channel plain_wallet "01" two_rows
  = (Raise (AttributeError "channels"),
     mkModel (channels two_rows) (signals two_rows)
       (logged two_rows ++ [LogDebug ("new channel with cid " +:+ "01")])).
Proof.
  apply (insert_without_engine_raises plain_wallet "01" two_rows). reflexivity.
Defined.

(** X6: an update for a channel that has a row, on a wallet without
    Lightning engine, raises AttributeError from [channel_to_model] after
    the debug line; the row list is as it was and nothing is emitted. *)
Theorem update_without_engine_raises (wallet : Wallet) (channel : Channel)
    (s : QEChannelListModel) (l : list (gmap string value)) (i : nat) :
  lnworker wallet = None →
  channels s = Some l → Forall adapter_row l →
  find_cid (cid_of channel) l = Some i →
  on_channel_updated wallet channel s
  = (Raise (AttributeError "get_node_alias"),
     mkModel (Some l) (signals s)
       (logged s ++ [LogDebug ("updating our channel "
                               +:+ short_id_for_GUI channel)])).
Proof.
  intros Hw Hs Hrows Hf.
  rewrite (on_channel_updated_hit _ _ _ _ _ Hs Hrows Hf).
  destruct (find_cid_Some _ _ _ Hf) as (old & Hi & _ & _).
  by eapply do_update_no_engine.
Qed.

Lemma update_without_engine_raises_witness :
  on_channel_updated plain_wallet chan_backup sample_model
  = (Raise (AttributeError "get_node_alias"),
     mkModel (Some sample_rows) (signals sample_model)
       (logged sample_model
        ++ [LogDebug ("updating our channel "
                      +:+ short_id_for_GUI chan_backup)])).
Proof.
  apply (update_without_engine_raises plain_wallet chan_backup sample_model
           sample_rows 1).
  - reflexivity.
  - apply sample_channels.
  - apply sample_rows_adapter.
  - vm_compute. reflexivity.
Defined.

(** ** Further properties: how the slots compose *)

Section compose.
Implicit Types (r : gmap string value) (l : list (gmap string value)).
Implicit Types (s : QEChannelListModel).

Lemma init_model_stable wallet lnw s :
  lnworker wallet = Some lnw →
  ∃ l, channels (init_model wallet s).2 = Some l
    ∧ ∀ k, filter (λ r, score_of r = k) l
           = filter (λ r, score_of r = k)
               (item_of wallet <$> values (get_channel_objects lnw)).
Proof.
  intros H.
  destruct (init_model_engine wallet lnw s H) as (l & Hsort & Hperm & Hrun).
  exists l. split; [by rewrite Hrun|].
  destruct (py_sort_total chan_sort_score score_of
              (item_of wallet <$> values (get_channel_objects lnw)))
    as (l' & Hsort' & _ & _ & Hstable).
  { apply Forall_fmap, Forall_forall. intros c _. simpl.
    unfold score_of.
    by rewrite (adapter_row_score _ (adapter_row_item_of _ _ c H)). }
  rewrite Hsort in Hsort'. by injection Hsort' as <-.
Qed.

Lemma find_cid_head cid r l :
  r !! "cid" = Some (VStr cid) → find_cid cid (r :: l) = Some 0%nat.
Proof. intros H. simpl. by rewrite bool_decide_eq_true_2. Qed.

Lemma find_cid_is_Some cid r l :
  r ∈ l → r !! "cid" = Some (VStr cid) → is_Some (find_cid cid l).
Proof.
  intros Hin Hc. destruct (find_cid cid l) eqn:Hf; [by eexists|].
  apply find_cid_None in Hf. rewrite Forall_forall in Hf.
  by destruct (Hf r Hin).
Qed.

End compose.

(** X7: with an engine, the list a rebuild leaves depends on the wallet
    only, not on the list before it: two rebuilds from the same wallet give
    the same rows whatever the states they start from, so rebuilding twice
    gives the rows of rebuilding once. *)
Theorem rebuild_forgets_previous_rows (wallet : Wallet) (lnw : LNWorker)
    (s s' : QEChannelListModel) :
  lnworker wallet = Some lnw →
  channels (init_model wallet s).2 = channels (init_model wallet s').2
  ∧ channels (init_model wallet (init_model wallet s).2).2
    = channels (init_model wallet s).2.
Proof.
  intros Hw.
  assert (Hany : ∀ s1 s2, channels (init_model wallet s1).2
                          = channels (init_model wallet s2).2).
  { intros s1 s2.
    destruct (init_model_engine wallet lnw s1 Hw) as (l1 & H1 & _ & ->).
    destruct (init_model_engine wallet lnw s2 Hw) as (l2 & H2 & _ & ->).
    simpl. congruence. }
  split; apply Hany.
Qed.

Lemma rebuild_forgets_previous_rows_witness :
  channels (init_model sample_wallet two_rows).2
  = channels (init_model sample_wallet new_model).2
  ∧ channels (init_model sample_wallet (init_model sample_wallet two_rows).2).2
    = channels (init_model sample_wallet two_rows).2.
Proof.
  apply (rebuild_forgets_previous_rows sample_wallet sample_lnworker
           two_rows new_model).
  reflexivity.
Defined.

(** X8: the sort of a rebuild is stable: the rows of one score are in the
    order in which [get_channel_objects().values()] gave their channels. *)
Theorem rebuild_keeps_order_within_score (wallet : Wallet) (lnw : LNWorker)
    (s : QEChannelListModel) (k : Z) :
  lnworker wallet = Some lnw →
  ∃ l, channels (init_model wallet s).2 = Some l
    ∧ filter (λ r, score_of r = k) l
      = filter (λ r, score_of r = k)
          (item_of wallet <$> values (get_channel_objects lnw))
    ∧ ∀ c, score_of (item_of wallet c)
           = get_state c + (if is_backup c then 10 else 0).
Proof.
  intros Hw. destruct (init_model_stable wallet lnw s Hw) as (l & Hl & Hst).
  exists l. split; [done|]. split; [apply Hst|].
  intros c. unfold score_of.
  rewrite (adapter_row_score _ (adapter_row_item_of _ _ c Hw)).
  pose proof (channel_to_model_engine _ _ c Hw) as H.
  apply channel_to_model_inv in H as (_ & _ & Hsc & Hb).
  unfold row_state_code, row_is_backup. by rewrite Hsc, Hb.
Qed.

Lemma rebuild_keeps_order_within_score_witness :
  row_cid <$> filter (λ r, score_of r = 3)
                (item_of tied_wallet <$> values (get_channel_objects tied_lnworker))
  = [Some (VStr "03"); Some (VStr "01")]
  ∧ ∃ l, channels (init_model tied_wallet sample_model).2 = Some l
      ∧ filter (λ r, score_of r = 3) l
        = filter (λ r, score_of r = 3)
            (item_of tied_wallet <$> values (get_channel_objects tied_lnworker))
      ∧ ∀ c, score_of (item_of tied_wallet c)
             = get_state c + (if is_backup c then 10 else 0).
Proof.
  split; [vm_compute; reflexivity|].
  apply (rebuild_keeps_order_within_score tied_wallet tied_lnworker
           sample_model 3).
  reflexivity.
Defined.

(** X9: inserting a cid and then removing it gives back the list: the
    removal deletes the row the insertion put in front, also when the list
    already had a row of that cid. *)
Theorem insert_then_remove (wallet : Wallet) (lnw : LNWorker) (cid : string)
    (c : Channel) (s : QEChannelListModel) (l : list (gmap string value)) :
  lnworker wallet = Some lnw →
  channels s = Some l → Forall adapter_row l →
  find_channel cid (values (lnworker_channels lnw)) = Some c →
  (remove_channel cid (new_channel wallet cid s).2).1 = Ok ()
  ∧ channels (remove_channel cid (new_channel wallet cid s).2).2 = Some l.
Proof.
  intros Hw Hs Hrows Hf.
  pose proof (new_channel_engine wallet lnw cid s l Hw Hs) as Hins.
  rewrite Hf in Hins.
  set (s1 := (new_channel wallet cid s).2).
  assert (Hs1 : channels s1 = Some (item_of wallet c :: l))
    by (subst s1; by rewrite Hins).
  assert (Hrows1 : Forall adapter_row (item_of wallet c :: l))
    by (constructor; [by eapply adapter_row_item_of|done]).
  assert (Hfind : find_cid cid (item_of wallet c :: l) = Some 0%nat).
  { apply find_cid_head. apply find_channel_Some in Hf as [_ <-].
    by apply (item_of_cid wallet lnw c Hw). }
  by rewrite (remove_channel_hit cid s1 _ 0 Hs1 Hrows1 Hfind).
Qed.

Lemma insert_then_remove_witness :
  (remove_channel "01" (new_channel sample_wallet "01" sample_model).2).1 = Ok ()
  ∧ channels (remove_channel "01" (new_channel sample_wallet "01" sample_model).2).2
    = Some sample_rows.
Proof.
  apply (insert_then_remove sample_wallet sample_lnworker "01" chan_open
           sample_model sample_rows).
  - reflexivity.
  - apply sample_channels.
  - apply sample_rows_adapter.
  - vm_compute. reflexivity.
Defined.

(** X10: when the cids of the list are unique and the list holds the row
    that [channel_to_model] gives for a channel now, an update for that
    channel leaves the list as it is (and still emits dataChanged for the
    row and numOpenChannelsChanged). *)
Theorem update_of_current_row (wallet : Wallet) (lnw : LNWorker)
    (channel : Channel) (s : QEChannelListModel)
    (l : list (gmap string value)) (i : nat) :
  lnworker wallet = Some lnw →
  channels s = Some l → Forall adapter_row l → unique_cids l →
  l !! i = Some (item_of wallet channel) →
  on_channel_updated wallet channel s
  = (Ok (), mkModel (Some l)
              (signals s ++ [DataChanged (Z.of_nat i) (Z.of_nat i) _ROLE_KEYS;
                             NumOpenChannelsChanged])
              (logged s ++ [LogDebug ("updating our channel "
                                      +:+ short_id_for_GUI channel)])).
Proof.
  intros Hw Hs Hrows Hu Hi.
  pose proof (item_of_cid wallet lnw channel Hw) as Hc.
  destruct (find_cid_is_Some (cid_of channel) (item_of wallet channel) l)
    as [j Hf]; [by eapply list_elem_of_lookup_2|exact Hc|].
  destruct (find_cid_Some _ _ _ Hf) as (old & Hj & Hold & _).
  assert (j = i) as ->.
  { eapply (NoDup_lookup _ _ _ (Some (VStr (cid_of channel))) Hu).
    - rewrite list_lookup_fmap, Hj. simpl. unfold row_cid. by rewrite Hold.
    - rewrite list_lookup_fmap, Hi. simpl. by rewrite Hc. }
  rewrite (on_channel_updated_hit _ _ _ _ _ Hs Hrows Hf).
  erewrite do_update_engine; [|done|done|done|].
  - by rewrite (list_insert_id l i _ Hi).
  - rewrite Forall_forall in Hrows. apply Hrows.
    by eapply list_elem_of_lookup_2.
Qed.

Lemma update_of_current_row_witness :
  on_channel_updated sample_wallet chan_backup two_rows
  = (Ok (), mkModel (Some [row_open; row_backup])
              (signals two_rows ++ [DataChanged 1 1 _ROLE_KEYS;
                                    NumOpenChannelsChanged])
              (logged two_rows ++ [LogDebug ("updating our channel "
                                             +:+ short_id_for_GUI chan_backup)])).
Proof.
  apply (update_of_current_row sample_wallet sample_lnworker chan_backup
           two_rows [row_open; row_backup] 1).
  - reflexivity.
  - reflexivity.
  - repeat constructor; by eapply adapter_row_item_of.
  - assert (Hc : row_cid <$> [row_open; row_backup]
                 = [Some (VStr "01"); Some (VStr "02")])
      by (vm_compute; reflexivity).
    unfold unique_cids. rewrite Hc. concrete_nodup.
  - reflexivity.
Defined.

(** ** Further properties: the rows *)

(** X11: the cid of a row identifies the channel id it was built from: two
    rows built by [channel_to_model] have the same cid exactly when their
    channels have the same channel id. *)
Theorem cid_identifies_channel_id (w1 w2 : Wallet) (c1 c2 : Channel)
    (r1 r2 : gmap string value) :
  channel_to_model w1 c1 = Ok r1 → channel_to_model w2 c2 = Ok r2 →
  (r1 !! "cid" = r2 !! "cid" ↔ channel_id c1 = channel_id c2).
Proof.
  intros H1 H2.
  apply channel_to_model_inv in H1 as (_ & -> & _).
  apply channel_to_model_inv in H2 as (_ & -> & _).
  unfold cid_of. split.
  - intros [= H]. by apply bytes_hex_inj.
  - by intros ->.
Qed.

Lemma cid_identifies_channel_id_witness :
  row_open !! "cid" = row_backup !! "cid"
  ↔ channel_id chan_open = channel_id chan_backup.
Proof.
  apply (cid_identifies_channel_id sample_wallet sample_wallet
           chan_open chan_backup row_open row_backup).
  - by apply (channel_to_model_engine sample_wallet sample_lnworker).
  - by apply (channel_to_model_engine sample_wallet sample_lnworker).
Defined.

(** X12: a rebuild from an engine that holds no channel object leaves the
    empty list and announces the insertion of the rows 0 to -1, between the
    reset and countChanged. *)
Theorem rebuild_of_no_channels (wallet : Wallet) (lnw : LNWorker)
    (s : QEChannelListModel) :
  lnworker wallet = Some lnw → get_channel_objects lnw = [] →
  init_model wallet s
  = (Ok (), mkModel (Some [])
              (signals s ++ [BeginResetModel; EndResetModel;
                             BeginInsertRows 0 (-1); EndInsertRows;
                             CountChanged])
              (logged s ++ [LogDebug "init_model"])).
Proof.
  intros Hw Hd.
  destruct (init_model_engine wallet lnw s Hw) as (l & _ & Hperm & ->).
  rewrite Hd in Hperm. apply Permutation_nil_r in Hperm. by subst l.
Qed.

Lemma rebuild_of_no_channels_witness :
  init_model empty_wallet two_rows
  = (Ok (), mkModel (Some [])
              (signals two_rows ++ [BeginResetModel; EndResetModel;
                                    BeginInsertRows 0 (-1); EndInsertRows;
                                    CountChanged])
              (logged two_rows ++ [LogDebug "init_model"])).
Proof.
  apply (rebuild_of_no_channels empty_wallet
           (mkLNWorker [] [] (λ _, None) (λ _, false)) two_rows);
    reflexivity.
Defined.

(** X13: in every state the adapter can reach, every row of the list has
    exactly the fourteen item keys: no slot leaves a row with a key missing
    or a key more, and the cid, state code and backup flag are a str, an int
    and a bool. *)
Theorem reachable_rows_have_item_keys (s : QEChannelListModel)
    (l : list (gmap string value)) (r : gmap string value) :
  reachable s → channels s = Some l → r ∈ l →
  (∀ name, is_Some (r !! name) ↔ name ∈ ITEM_KEYS)
  ∧ (∃ cid, r !! "cid" = Some (VStr cid))
  ∧ r !! "state_code" = Some (VInt (row_state_code r))
  ∧ r !! "is_backup" = Some (VBool (row_is_backup r)).
Proof.
  intros Hreach Hs Hin.
  pose proof (reachable_adapter_rows s Hreach l Hs) as Hrows.
  rewrite Forall_forall in Hrows. specialize (Hrows r Hin).
  split; [|split; [by apply adapter_row_cid|split]].
  - intros name. rewrite <- elem_of_dom, (adapter_row_dom r Hrows).
    apply elem_of_list_to_set.
  - by apply adapter_row_state_code.
  - by apply adapter_row_is_backup.
Qed.

Lemma reachable_rows_have_item_keys_witness :
  (∀ name, is_Some (row_open !! name) ↔ name ∈ ITEM_KEYS)
  ∧ (∃ cid, row_open !! "cid" = Some (VStr cid))
  ∧ row_open !! "state_code" = Some (VInt (row_state_code row_open))
  ∧ row_open !! "is_backup" = Some (VBool (row_is_backup row_open)).
Proof.
  apply (reachable_rows_have_item_keys sample_model sample_rows row_open
           sample_reachable sample_channels).
  apply (list_elem_of_lookup_2 _ 0%nat). reflexivity.
Defined.

(** X14: once the row list exists, no slot takes it away: in a reachable
    state with a row list, the state after any slot call, raising or not,
    has a row list again. *)
Theorem row_list_stays (s : QEChannelListModel) (o : slot) :
  reachable s → is_Some (channels s) →
  is_Some (channels (run_slot o s).2).
Proof.
  intros Hreach [l Hs].
  pose proof (reachable_adapter_rows s Hreach l Hs) as Hrows.
  destruct o as [w|w c|w cid|cid]; cbn [run_slot].
  - pose proof (rebuild_channels w s) as H.
    destruct (lnworker w) as [lnw|].
    + destruct H as (l' & -> & _). by eexists.
    + rewrite H, Hs. by eexists.
  - destruct (update_channels w c s l Hs Hrows) as [->|(i & lnw & _ & _ & ->)];
      by eexists.
  - destruct (insert_channels w cid s l Hs) as [->|(lnw & c & _ & _ & ->)];
      by eexists.
  - destruct (remove_channels cid s l Hs Hrows) as [->|(i & _ & ->)];
      by eexists.
Qed.

Lemma row_list_stays_witness :
  is_Some (channels (run_slot (Insert plain_wallet "01") sample_model).2).
Proof.
  apply (row_list_stays sample_model (Insert plain_wallet "01")
           sample_reachable).
  exists sample_rows. apply sample_channels.
Defined.

(** X15: a rebuild from a wallet with an engine whose dict of channel
    objects is keyed by channel id leaves rows with pairwise distinct cids,
    whatever the list held before, rows with one cid twice included. *)
Theorem rebuild_restores_unique_cids (wallet : Wallet) (lnw : LNWorker)
    (s : QEChannelListModel) :
  lnworker wallet = Some lnw → keyed_by_id (get_channel_objects lnw) →
  ∃ l, channels (init_model wallet s).2 = Some l
    ∧ Forall adapter_row l ∧ unique_cids l.
Proof.
  intros Hw Hk.
  destruct (init_model_engine wallet lnw s Hw) as (l & _ & Hperm & ->).
  exists l. split; [done|]. split.
  - rewrite Hperm. apply Forall_fmap, Forall_forall. intros c _.
    by eapply adapter_row_item_of.
  - unfold unique_cids. rewrite Hperm. by eapply keyed_by_id_cids.
Qed.

Lemma rebuild_restores_unique_cids_witness :
  ∃ l, channels (init_model sample_wallet
                   (new_channel sample_wallet "01" sample_model).2).2 = Some l
    ∧ Forall adapter_row l ∧ unique_cids l.
Proof.
  apply (rebuild_restores_unique_cids sample_wallet sample_lnworker
           (new_channel sample_wallet "01" sample_model).2).
  - reflexivity.
  - apply (sample_wallet_keyed sample_lnworker eq_refl).
Defined.

(** C2: the exposed calls do raise.  On a wallet without Lightning engine,
    the case the guard of [init_model] is written for, the constructor
    returns with the warning logged and without a row list, and then the row
    count, the count property and [data] raise AttributeError; [new_channel]
    on such a wallet raises AttributeError in every state, the row list and
    the notifications left as they were; and on a row of the adapter [data]
    raises KeyError for the role [initiator]. *)
Theorem ui_calls_raise_without_engine (cid : string) (s : QEChannelListModel)
    (row role : Z) (lnw : LNWorker) (lnc : Channel) :
  __init__ (mkWallet None)
  = (Ok (), mkModel None [] [LogDebug "init_model";
                             LogWarning "lnworker should be defined"])
  ∧ rowCount (__init__ (mkWallet None)).2
    = (Raise (AttributeError "channels"), (__init__ (mkWallet None)).2)
  ∧ count (__init__ (mkWallet None)).2
    = (Raise (AttributeError "channels"), (__init__ (mkWallet None)).2)
  ∧ data row role (__init__ (mkWallet None)).2
    = (Raise (AttributeError "channels"), (__init__ (mkWallet None)).2)
  ∧ new_channel (mkWallet None) cid s
    = (Raise (AttributeError "channels"),
       mkModel (channels s) (signals s)
         (logged s ++ [LogDebug ("new channel with cid " +:+ cid)]))
  ∧ (data 0 (Qt_UserRole + 3)
       (mkModel (Some [item_of (mkWallet (Some lnw)) lnc]) [] [])).1
    = Raise (KeyError "initiator").
Proof.
  split; [reflexivity|]. split; [reflexivity|]. split; [reflexivity|].
  split; [reflexivity|]. split; [by apply new_channel_no_engine|].
  pose proof (data_at (mkModel (Some [item_of (mkWallet (Some lnw)) lnc]) [] [])
                [item_of (mkWallet (Some lnw)) lnc] 0 3
                (item_of (mkWallet (Some lnw)) lnc) "initiator"
                eq_refl eq_refl eq_refl) as Hdata.
  change (Z.of_nat 0) with 0 in Hdata. change (Z.of_nat 3) with 3 in Hdata.
  rewrite Hdata.
  cbn [fst]. unfold py_getitem.
  assert (item_of (mkWallet (Some lnw)) lnc !! "initiator" = None) as ->; [|done].
  apply not_elem_of_dom.
  rewrite (adapter_row_dom _ (adapter_row_item_of (mkWallet (Some lnw))
                                lnw lnc eq_refl)).
  rewrite elem_of_list_to_set. unfold ITEM_KEYS. concrete_not_in.
Qed.
